(** * emoji-explainer: the service handlers over a model of their collaborators

    Every handler of [project/*_service.py] is an [async def] that awaits
    calls on the persistence gateway (prisma) and on an HTTP client (httpx).
    A handler is embedded as a finite tree of such calls ([prog]); the
    collaborators are interpreted over an explicit [World] (the tables and
    the log of provider calls).  Each [await] is one node of the tree, so two
    handlers can be interleaved at exactly the points where the Python
    coroutines can be. *)

From Stdlib Require Import ZArith List String Ascii Bool Lia.
From Stdlib Require Import Sorting.Sorted Sorting.Permutation DecimalString.
From stdpp Require Import base option gmap strings list.

Local Open Scope string_scope.
Local Open Scope list_scope.
Local Open Scope Z_scope.

(** ** Python values *)

(** [str(n)] for an [int]. *)
Definition str_int (n : Z) : string := NilZero.string_of_int (Z.to_int n).

(** Exceptions the handlers raise, catch or let through.  The constructors
    follow the Python classes; [except Exception] catches all of them. *)
Inductive exn : Type :=
| HTTPStatusError (status_code : Z) (text : string)   (* httpx *)
| RequestError (url : string) (msg : string)          (* httpx: timeout, connect *)
| JSONDecodeError (msg : string)                      (* response.json() *)
| KeyError (key : string)                             (* d[key] *)
| UniqueViolationError (msg : string)                 (* prisma.errors *)
| DataError (msg : string)                            (* prisma.errors *)
| ValidationError (msg : string)                      (* pydantic *)
| AttributeError (msg : string)
| ZeroDivisionError (msg : string)
| ValueError (msg : string).

(** [str(e)]. *)
Definition str_exn (e : exn) : string :=
  match e with
  | HTTPStatusError c t => "HTTP status " +:+ str_int c
  | RequestError _ m => m
  | JSONDecodeError m => m
  | KeyError k => "'" +:+ k +:+ "'"
  | UniqueViolationError m => m
  | DataError m => m
  | ValidationError m => m
  | AttributeError m => m
  | ZeroDivisionError m => m
  | ValueError m => m
  end.

(** ** Records of the persistence gateway *)

Module prisma.

(** Modelled from the spec: the members of [prisma.enums.Role], generated
    from a schema that is not among the sources (roles ADMIN, USER, GUEST). *)
Inductive Role : Set := ADMIN | USER | GUEST.

Definition Role_name (r : Role) : string :=
  match r with ADMIN => "ADMIN" | USER => "USER" | GUEST => "GUEST" end.

Definition Role_eqb (a b : Role) : bool :=
  match a, b with
  | ADMIN, ADMIN | USER, USER | GUEST, GUEST => true
  | _, _ => false
  end.

Record User : Type := mkUser
  { user_id : Z; user_email : string; user_password : string; user_role : Role }.

Record Emoji : Type := mkEmoji
  { emoji_id : Z; character : string; meaning : string }.

Record Feedback : Type := mkFeedback
  { feedback_id : Z; userId : Z; emojiId : Z; content : string;
    createdAt : Z; reviewed : bool }.

(** A feedback row as [find_many(include=...)] returns it: the relations
    that were asked for are loaded, the others are [None]. *)
Record FeedbackRow : Type := mkRow
  { row : Feedback; row_user : option User; row_emoji : option Emoji }.

Record Include : Set := mkInclude { include_user : bool; include_emoji : bool }.

Inductive SortOrder : Set := asc | desc.

End prisma.
Import prisma.

(** ** HTTP *)

Module httpx.

Inductive Method : Set := GET | POST.

Record Request : Type := mkRequest
  { method : Method; url : string;
    headers : list (string * string); json_body : list (string * string) }.

(** A response: its status, its body text and what [response.json()] gives
    ([None] when the text is not JSON; otherwise an object with string
    values, the only shape the handlers read). *)
Record Response : Type := mkResponse
  { status_code : Z; text : string; payload : option (gmap string string) }.

(** [response.is_success]: a 2xx status. *)
Definition is_success (r : Response) : bool :=
  (200 <=? status_code r) && (status_code r <=? 299).

End httpx.

(** ** The world *)

Record Database : Type := mkDatabase
  { users : list User;
    emojis : list Emoji;
    emoji_seq : Z;                  (* next autoincrement id of Emoji *)
    feedbacks : list Feedback }.

(** The provider is an opaque remote function; its answer may depend on how
    many calls were made before (two racing callers need not see the same
    answer).  An [inl] is what the client raises instead of answering. *)
Record World : Type := mkWorld
  { db : Database;
    provider : nat -> httpx.Request -> exn + httpx.Response;
    http_log : list httpx.Request }.

Definition set_db (w : World) (d : Database) : World :=
  {| db := d; provider := provider w; http_log := http_log w |}.

(** *** Table operations *)

Definition Emoji_by_character (c : string) (es : list Emoji) : option Emoji :=
  List.find (fun e => String.eqb (character e) c) es.

Definition Emoji_by_id (i : Z) (es : list Emoji) : option Emoji :=
  List.find (fun e => emoji_id e =? i) es.

Definition User_by_id (i : Z) (us : list User) : option User :=
  List.find (fun u => user_id u =? i) us.

Definition User_by_email (m : string) (us : list User) : option User :=
  List.find (fun u => String.eqb (user_email u) m) us.

Definition Feedback_by_id (i : Z) (fs : list Feedback) : option Feedback :=
  List.find (fun f => feedback_id f =? i) fs.

(** Modelled from the spec: the unique key on [Emoji.character] ("at most
    one meaning per character is stored"), declared in a schema that is not
    among the sources.  [create] on a character that is already stored is
    refused and leaves the table as it was; otherwise the record gets the
    next id and is added. *)
Definition Emoji_insert (c m : string) (d : Database) : exn + Emoji * Database :=
  match Emoji_by_character c (emojis d) with
  | Some _ =>
      inl (UniqueViolationError
             "Unique constraint failed on the fields: (`character`)")
  | None =>
      let e := mkEmoji (emoji_seq d) c m in
      inr (e, {| users := users d; emojis := emojis d ++ [e];
                 emoji_seq := emoji_seq d + 1;
                 feedbacks := feedbacks d |})
  end.

(** [order={"createdAt": "desc"}]: newest first.  Insertion into a list that
    is already newest-first.  The order among rows of equal [createdAt] is
    the database's choice; here they keep table order. *)
Fixpoint insert_desc (f : Feedback) (l : list Feedback) : list Feedback :=
  match l with
  | [] => [f]
  | g :: l' => if createdAt g <=? createdAt f then f :: l
               else g :: insert_desc f l'
  end.

Definition order_desc (l : list Feedback) : list Feedback :=
  List.fold_right insert_desc [] l.

Definition order_by (o : SortOrder) (l : list Feedback) : list Feedback :=
  match o with
  | desc => order_desc l
  | asc => List.rev (order_desc l)
  end.

Definition load (inc : Include) (d : Database) (f : Feedback) : FeedbackRow :=
  {| row := f;
     row_user := if include_user inc then User_by_id (userId f) (users d) else None;
     row_emoji := if include_emoji inc then Emoji_by_id (emojiId f) (emojis d) else None |}.

Definition where_userId (u : option Z) (l : list Feedback) : list Feedback :=
  match u with
  | None => l
  | Some i => List.filter (fun f => userId f =? i) l
  end.

(** ** Awaited calls *)

Inductive op : Type -> Type :=
| Emoji_find_unique (character : string) : op (option Emoji)
| Emoji_create (character meaning : string) : op (exn + Emoji)
| User_find_unique (id : Z) : op (option User)
| User_find_first (email : string) : op (option User)
| User_delete (id : Z) : op (option User)
| Feedback_find_unique (id : Z) : op (option Feedback)
| Feedback_delete (id : Z) : op (option Feedback)
| Feedback_find_many (where_ : option Z) (skip take : option Z)
                     (include : Include) (order : SortOrder)
    : op (exn + list FeedbackRow)
| Feedback_count : op Z
| Http_send (request : httpx.Request) : op (exn + httpx.Response).

(** What one awaited call returns and how it changes the world. *)
Definition perform {X : Type} (o : op X) (w : World) : X * World :=
  let d := db w in
  match o in op X return X * World with
  | Emoji_find_unique c => (Emoji_by_character c (emojis d), w)
  | Emoji_create c m =>
      match Emoji_insert c m d with
      | inl e => (inl e, w)
      | inr (e, d') => (inr e, set_db w d')
      end
  | User_find_unique i => (User_by_id i (users d), w)
  | User_find_first m => (User_by_email m (users d), w)
  | User_delete i =>
      (User_by_id i (users d),
       set_db w {| users := List.filter (fun u => negb (user_id u =? i)) (users d);
                   emojis := emojis d; emoji_seq := emoji_seq d;
                   feedbacks := feedbacks d |})
  | Feedback_find_unique i => (Feedback_by_id i (feedbacks d), w)
  | Feedback_delete i =>
      (Feedback_by_id i (feedbacks d),
       set_db w {| users := users d; emojis := emojis d; emoji_seq := emoji_seq d;
                   feedbacks :=
                     List.filter (fun f => negb (feedback_id f =? i)) (feedbacks d) |})
  | Feedback_find_many wh sk tk inc ord =>
      let s := default 0 sk in
      let sorted := order_by ord (where_userId wh (feedbacks d)) in
      if (s <? 0) || (default 0 tk <? 0) then
        (* paging backwards (negative take) and negative skip are not
           described here *)
        (inl (DataError "skip/take out of the modelled range"), w)
      else
        let rest := List.skipn (Z.to_nat s) sorted in
        let page := match tk with
                    | Some t => List.firstn (Z.to_nat t) rest
                    | None => rest
                    end in
        (inr (List.map (load inc d) page), w)
  | Feedback_count => (Z.of_nat (List.length (feedbacks d)), w)
  | Http_send r =>
      (provider w (List.length (http_log w)) r,
       {| db := d; provider := provider w; http_log := http_log w ++ [r] |})
  end.

(** ** Handlers as trees of awaited calls *)

Inductive prog (R : Type) : Type :=
| Ret (r : R)
| Raise (e : exn)
| Vis {X : Type} (o : op X) (k : X -> prog R).
Arguments Ret {R} r.
Arguments Raise {R} e.
Arguments Vis {R X} o k.

Fixpoint bind {A B : Type} (p : prog A) (f : A -> prog B) : prog B :=
  match p with
  | Ret a => f a
  | Raise e => Raise e
  | Vis o k => Vis o (fun x => bind (k x) f)
  end.

#[export] Instance prog_ret : MRet prog := @Ret.
#[export] Instance prog_bind : MBind prog := fun A B f p => bind p f.

(** [try: p except Exception as e: h e] *)
Fixpoint try_except {A : Type} (p : prog A) (h : exn -> prog A) : prog A :=
  match p with
  | Ret a => Ret a
  | Raise e => h e
  | Vis o k => Vis o (fun x => try_except (k x) h)
  end.

(** [await] of a call that cannot raise, and of one that can. *)
Definition call {X : Type} (o : op X) : prog X := Vis o Ret.

Definition await {X : Type} (o : op (exn + X)) : prog X :=
  Vis o (fun r => match r with inl e => Raise e | inr x => Ret x end).

Inductive outcome (R : Type) : Type :=
| Returned (r : R)
| Raised (e : exn).
Arguments Returned {R} r.
Arguments Raised {R} e.

(** One handler run to its end. *)
Fixpoint run {R : Type} (p : prog R) (w : World) : outcome R * World :=
  match p with
  | Ret r => (Returned r, w)
  | Raise e => (Raised e, w)
  | Vis o k => let '(x, w') := perform o w in run (k x) w'
  end.

(** One awaited call of a handler. *)
Definition step {R : Type} (p : prog R) (w : World) : prog R * World :=
  match p with
  | Vis o k => let '(x, w') := perform o w in (k x, w')
  | _ => (p, w)
  end.

(** Two handlers in flight.  The schedule says which of them the event loop
    resumes next ([true]: the first); when it is used up the first runs to
    its end, then the second. *)
Fixpoint run2 {A B : Type} (sched : list bool) (p : prog A) (q : prog B) (w : World)
  : outcome A * outcome B * World :=
  match sched with
  | [] => let '(a, w1) := run p w in
          let '(b, w2) := run q w1 in (a, b, w2)
  | true :: s => let '(p', w') := step p w in run2 s p' q w'
  | false :: s => let '(q', w') := step q w in run2 s p q' w'
  end.

(** [response.raise_for_status()] and [response.json()]. *)
Definition raise_for_status (response : httpx.Response) : prog unit :=
  if httpx.is_success response then Ret tt
  else Raise (HTTPStatusError (httpx.status_code response) (httpx.text response)).

Definition json (response : httpx.Response) : prog (gmap string string) :=
  match httpx.payload response with
  | Some d => Ret d
  | None => Raise (JSONDecodeError "Expecting value: line 1 column 1 (char 0)")
  end.

(** A list comprehension whose element expression may raise. *)
Fixpoint for_each {A B : Type} (f : A -> prog B) (l : list A) : prog (list B) :=
  match l with
  | [] => Ret []
  | a :: l' => b ← f a; bs ← for_each f l'; mret (b :: bs)
  end.

(** [a // b] on [int]. *)
Definition floordiv (a b : Z) : prog Z :=
  if b =? 0 then Raise (ZeroDivisionError "integer division or modulo by zero")
  else Ret (a / b).

(** ** fetchEmojiMeaning_service.py *)

Module fetchEmojiMeaning_service.

Record EmojiExplainerResponse : Type := mkResp
  { emoji : string; explanation : string }.

Definition fetchEmojiMeaning (emoji : string) : prog EmojiExplainerResponse :=
  stored_emoji ← call (Emoji_find_unique emoji);
  match stored_emoji with
  | Some stored_emoji =>
      mret {| emoji := emoji; explanation := meaning stored_emoji |}
  | None =>
      let api_url := "https://api.groq.com/emoji?char=" +:+ emoji in
      try_except
        (response ← await (Http_send (httpx.mkRequest httpx.GET api_url [] []));
         _ ← raise_for_status response;
         result_data ← json response;
         (* meaning = result_data["explanation"] *)
         meaning ← match result_data !! "explanation" with
                   | Some m => mret m
                   | None => Raise (KeyError "explanation")
                   end;
         new_emoji ← await (Emoji_create emoji meaning);
         mret {| emoji := emoji; explanation := prisma.meaning new_emoji |})
        (fun e =>
           match e with
           | HTTPStatusError c t =>
               Raise (ValueError ("HTTP Error occurred: " +:+ str_int c +:+ " - " +:+ t))
           | RequestError u m =>
               Raise (ValueError ("Network Error: " +:+ u +:+ " - " +:+ m))
           | _ => Raise (ValueError ("An error occurred: " +:+ str_exn e))
           end)
  end.

End fetchEmojiMeaning_service.

(** ** interpretEmoji_service.py *)

Module interpretEmoji_service.

Record EmojiInterpretationResponse : Type := mkResp { meaning : string }.

Definition interpretEmoji (emoji : string) : prog EmojiInterpretationResponse :=
  let url := "https://console.groq.com/api/interpret" in
  let headers := [("Content-Type", "application/json")] in
  let body := [("emoji", emoji)] in
  response ← await (Http_send (httpx.mkRequest httpx.POST url headers body));
  if httpx.status_code response =? 200 then
    data ← json response;
    (* meaning = data.get("meaning", "No interpretation found.") *)
    let meaning := default "No interpretation found." (data !! "meaning") in
    meaning ← try_except
                (emoji_entry ← await (Emoji_create emoji meaning);
                 mret meaning)
                (fun e =>
                   emoji_entry ← call (Emoji_find_unique emoji);
                   mret (match emoji_entry with
                         | Some emoji_entry => prisma.meaning emoji_entry
                         | None => meaning
                         end));
    mret {| meaning := meaning |}
  else
    mret {| meaning := "Failed to interpret the emoji." |}.

End interpretEmoji_service.

(** ** explainEmoji_service.py *)

Module explainEmoji_service.

Record EmojiExplainResponse : Type := mkResp
  { meaning : string; error : option string }.

Definition explainEmoji (emoji_character : string) : prog EmojiExplainResponse :=
  let emoji_api_url := "https://console.groq.com/api/emoji" in
  try_except
    (response ← await (Http_send
                         (httpx.mkRequest httpx.POST emoji_api_url [] [("emoji", emoji_character)]));
     _ ← raise_for_status response;
     data ← json response;
     (* if "meaning" in data *)
     match data !! "meaning" with
     | Some m => mret {| meaning := m; error := None |}
     | None =>
         mret {| meaning := "";
                 error := Some "Meaning not found for the provided emoji." |}
     end)
    (fun e =>
       match e with
       | HTTPStatusError _ _ =>
           mret {| meaning := ""; error := Some "Invalid response from the server." |}
       | RequestError _ _ =>
           mret {| meaning := "";
                   error := Some "Failed to connect to the GROQ server." |}
       | _ => mret {| meaning := ""; error := Some (str_exn e) |}
       end).

End explainEmoji_service.

(** ** checkApiStatus_service.py *)

Module checkApiStatus_service.

Record GetApiStatusRequest : Set := mkGetApiStatusRequest { }.

Record GetApiStatusResponse : Type := mkResp
  { status_code : Z; message : string }.

Definition checkApiStatus (request : GetApiStatusRequest)
  : prog GetApiStatusResponse :=
  let url := "https://console.groq.com/api/status" in
  try_except
    (response ← await (Http_send (httpx.mkRequest httpx.GET url [] []));
     let status_code := httpx.status_code response in
     let message := if status_code =? 200 then "API is operational."
                    else "API is experiencing issues." in
     mret {| status_code := status_code; message := message |})
    (fun e => mret {| status_code := 503; message := str_exn e |}).

End checkApiStatus_service.

(** ** deleteFeedback_service.py *)

Module deleteFeedback_service.

Record DeleteFeedbackResponse : Type := mkResp
  { success : bool; message : string }.

Definition deleteFeedback (feedbackId : Z) : prog DeleteFeedbackResponse :=
  feedback ← call (Feedback_find_unique feedbackId);
  match feedback with
  | None =>
      mret {| success := false;
              message := "No feedback found with ID " +:+ str_int feedbackId |}
  | Some feedback =>
      if reviewed feedback then
        mret {| success := false;
                message := "Feedback " +:+ str_int feedbackId
                           +:+ " has been reviewed and cannot be deleted" |}
      else
        delete_result ← call (Feedback_delete feedbackId);
        match delete_result with
        | Some _ =>
            mret {| success := true;
                    message := "Feedback " +:+ str_int feedbackId
                               +:+ " successfully deleted." |}
        | None =>
            mret {| success := false;
                    message := "Deletion failed due to a server error." |}
        end
  end.

End deleteFeedback_service.

(** ** deleteUser_service.py *)

Module deleteUser_service.

Record DeleteUserResponse : Type := mkResp { message : string; status : Z }.

Section WithInt.

(** Python's [int(s)] on a [str]: the number, or the exception raised. *)
Variable int : string -> exn + Z.

Definition int_ (s : string) : prog Z :=
  match int s with inl e => Raise e | inr n => Ret n end.

Definition deleteUser (userId : string) : prog DeleteUserResponse :=
  id ← int_ userId;
  user ← call (User_find_unique id);
  match user with
  | None => mret {| message := "User not found."; status := 404 |}
  | Some user =>
      if negb (Role_eqb (user_role user) ADMIN) then
        mret {| message := "Unauthorized access. Only admin users can delete accounts.";
                status := 403 |}
      else
        id ← int_ userId;
        _ ← call (User_delete id);
        mret {| message := "User successfully deleted."; status := 200 |}
  end.

End WithInt.

End deleteUser_service.

(** ** fetchFeedback_service.py *)

Module fetchFeedback_service.

Record FeedbackDetail : Type := mkDetail
  { id : Z; content : string; userEmail : string; createdAt : Z }.

Record GetFeedbackResponse : Type := mkResp
  { feedbacks : list FeedbackDetail; totalPages : Z; currentPage : Z }.

(** One element of the comprehension; [record.user.email] on a row whose
    user is [None] is an [AttributeError]. *)
Definition detail (record : FeedbackRow) : prog FeedbackDetail :=
  match row_user record with
  | Some user =>
      Ret {| id := feedback_id (row record);
             content := prisma.content (row record);
             userEmail := user_email user;
             createdAt := prisma.createdAt (row record) |}
  | None => Raise (AttributeError "'NoneType' object has no attribute 'email'")
  end.

Definition fetchFeedback (page limit : Z) : prog GetFeedbackResponse :=
  let skip := (page - 1) * limit in
  feedback_records ←
    await (Feedback_find_many None (Some skip) (Some limit)
             {| include_user := true; include_emoji := false |} desc);
  total_feedback_count ← call Feedback_count;
  total_pages ← floordiv (total_feedback_count + limit - 1) limit;
  feedback_details ← for_each detail feedback_records;
  mret {| feedbacks := feedback_details; totalPages := total_pages;
          currentPage := page |}.

End fetchFeedback_service.

(** ** getHistory_service.py *)

Module getHistory_service.

Record HistoryRequest : Set := mkHistoryRequest { }.

Record EmojiDetails : Type := mkDetails { emoji : string; meaning : string }.

Record HistoryResponse : Type := mkResp { recent_emojis : list EmojiDetails }.

Definition details (f : FeedbackRow) : prog EmojiDetails :=
  match row_emoji f with
  | Some e => Ret {| emoji := character e; meaning := prisma.meaning e |}
  | None => Raise (AttributeError "'NoneType' object has no attribute 'character'")
  end.

Definition getHistory (request : HistoryRequest) : prog HistoryResponse :=
  let user_id := 1 in
  feedbacks ←
    await (Feedback_find_many (Some user_id) None None
             {| include_user := false; include_emoji := true |} desc);
  recent_emojis ← for_each details feedbacks;
  mret {| recent_emojis := recent_emojis |}.

End getHistory_service.

(** ** userLogin_service.py *)

Module userLogin_service.

(** [class Role(Enum): pass]: the class body declares no member. *)
Inductive Role : Set := .

Record UserDetails : Type := mkDetails { email : string; role : Role }.

Record LoginResponse : Type := mkResp { jwt : string; userDetails : UserDetails }.

(** The members of [Role] by name, as the validation of a [role: Role]
    field looks them up. *)
Definition Role_members : list (string * Role) := [].

Definition validate_Role (v : prisma.Role) : exn + Role :=
  match List.find (fun m => String.eqb (fst m) (Role_name v)) Role_members with
  | Some m => inr (snd m)
  | None => inl (ValidationError "1 validation error for UserDetails: role")
  end.

(** [UserDetails(email=..., role=...)]: the model validates its fields. *)
Definition UserDetails_ (email : string) (role : prisma.Role) : prog UserDetails :=
  match validate_Role role with
  | inl e => Raise e
  | inr r => Ret {| email := email; role := r |}
  end.

(** The claims [jwt.encode] signs. *)
Record Claims : Type := mkClaims { claim_user_id : Z; claim_role : string }.

Section WithCrypto.

(** [passlib.hash.bcrypt.verify(secret, hash)]: whether the secret matches,
    or the exception raised on a malformed hash. *)
Variable bcrypt_verify : string -> string -> exn + bool.

(** [jwt.encode(claims, key, algorithm=...)]. *)
Variable jwt_encode : Claims -> string -> string -> string.

Definition verify (password hash : string) : prog bool :=
  match bcrypt_verify password hash with inl e => Raise e | inr b => Ret b end.

Definition userLogin (email password : string) : prog LoginResponse :=
  user ← call (User_find_first email);
  match user with
  | None => Raise (ValueError "Invalid email or password")
  | Some user =>
      verified ← verify password (user_password user);
      if negb verified then Raise (ValueError "Invalid email or password")
      else
        let jwt_token :=
          jwt_encode {| claim_user_id := user_id user;
                        claim_role := Role_name (user_role user) |}
                     "secret_key" "HS256" in
        user_details ← UserDetails_ (user_email user) (user_role user);
        mret {| jwt := jwt_token; userDetails := user_details |}
  end.

End WithCrypto.

End userLogin_service.

(** ** What a provider answer means to a handler *)

(** The meaning a provider answer carries under [field]: none when the
    client raised (timeout, connection failure), when the status is not a
    success, or when the payload is not JSON or lacks the field. *)
Definition provider_meaning (field : string) (r : exn + httpx.Response) : option string :=
  match r with
  | inl _ => None
  | inr response =>
      if httpx.is_success response
      then match httpx.payload response with
           | Some d => d !! field
           | None => None
           end
      else None
  end.

(** The answer the provider gives to the next call of world [w]. *)
Definition next_answer (w : World) (r : httpx.Request) : exn + httpx.Response :=
  provider w (List.length (http_log w)) r.

Definition fetch_request (c : string) : httpx.Request :=
  httpx.mkRequest httpx.GET ("https://api.groq.com/emoji?char=" +:+ c) [] [].

Definition interpret_request (c : string) : httpx.Request :=
  httpx.mkRequest httpx.POST "https://console.groq.com/api/interpret"
    [("Content-Type", "application/json")] [("emoji", c)].

Definition explain_request (c : string) : httpx.Request :=
  httpx.mkRequest httpx.POST "https://console.groq.com/api/emoji" [] [("emoji", c)].

Definition status_request : httpx.Request :=
  httpx.mkRequest httpx.GET "https://console.groq.com/api/status" [] [].

(** The world after one provider call that changed no table. *)
Definition logged (w : World) (r : httpx.Request) : World :=
  {| db := db w; provider := provider w; http_log := http_log w ++ [r] |}.

(** ** Concrete worlds for the examples *)

Definition grin : string := "😀".

(** A provider that answers every call with status [code] and object [d]. *)
Definition answers (code : Z) (d : gmap string string)
  : nat -> httpx.Request -> exn + httpx.Response :=
  fun _ _ => inr (httpx.mkResponse code "" (Some d)).

(** A provider that cannot be reached. *)
Definition unreachable : nat -> httpx.Request -> exn + httpx.Response :=
  fun _ r => inl (RequestError (httpx.url r) "All connection attempts failed").

Definition empty_db : Database :=
  {| users := []; emojis := []; emoji_seq := 1; feedbacks := [] |}.

Definition grin_db : Database :=
  {| users := []; emojis := [mkEmoji 1 grin "grinning face"]; emoji_seq := 2;
     feedbacks := [] |}.

Definition world (d : Database) (p : nat -> httpx.Request -> exn + httpx.Response)
  : World := {| db := d; provider := p; http_log := [] |}.


(** ** Vocabulary of the paging and history properties *)

(** Newest first: no row is older than the row after it. *)
Definition newer_or_same (a b : Feedback) : Prop := createdAt b <= createdAt a.

Definition newest_first (l : list Feedback) : Prop := Sorted newer_or_same l.

(** Foreign keys: every feedback row refers to a stored user, and to a
    stored emoji. *)
Definition users_resolve (d : Database) : Prop :=
  forall f, In f (feedbacks d) -> exists u, User_by_id (userId f) (users d) = Some u.

Definition emojis_resolve (d : Database) : Prop :=
  forall f, In f (feedbacks d) -> exists e, Emoji_by_id (emojiId f) (emojis d) = Some e.

(** [n] is the ceiling of [T / L]: [n - 1 < T / L <= n]. *)
Definition is_ceil (T L n : Z) : Prop := (n - 1) * L < T /\ T <= n * L.

(** A detail of the response is feedback [f] with its owner's email. *)
Definition joined_user (d : Database) (f : Feedback)
    (x : fetchFeedback_service.FeedbackDetail) : Prop :=
  fetchFeedback_service.id x = feedback_id f
  /\ fetchFeedback_service.content x = content f
  /\ fetchFeedback_service.createdAt x = createdAt f
  /\ exists u, User_by_id (userId f) (users d) = Some u
               /\ fetchFeedback_service.userEmail x = user_email u.

(** An entry of the history is the emoji feedback [f] is about. *)
Definition joined_emoji (d : Database) (f : Feedback)
    (x : getHistory_service.EmojiDetails) : Prop :=
  exists e, Emoji_by_id (emojiId f) (emojis d) = Some e
            /\ getHistory_service.emoji x = character e
            /\ getHistory_service.meaning x = meaning e.

Definition alice : User := mkUser 1 "a@x.com" "$2b$12$hash-of-pw" USER.
Definition bob : User := mkUser 2 "b@x.com" "$2b$12$hash-of-pw2" ADMIN.

(** Two users, two emojis and three feedback rows. *)
Definition feedback_db : Database :=
  {| users := [alice; bob];
     emojis := [mkEmoji 1 grin "grinning face"; mkEmoji 2 "🎉" "party popper"];
     emoji_seq := 3;
     feedbacks := [mkFeedback 1 1 1 "nice" 100 false;
                   mkFeedback 2 2 2 "fun" 300 true;
                   mkFeedback 3 1 2 "loud" 200 false] |}.

(** ** Stand-ins for library functions, for the examples *)

(** [int(s)] on an optional minus sign followed by ASCII digits. *)
Definition digit (a : ascii) : option Z :=
  let n := Z.of_nat (nat_of_ascii a) in
  if (48 <=? n) && (n <=? 57) then Some (n - 48) else None.

Fixpoint digits (acc : Z) (s : string) : option Z :=
  match s with
  | EmptyString => Some acc
  | String a s' =>
      match digit a with
      | Some d => digits (10 * acc + d) s'
      | None => None
      end
  end.

Definition int_decimal (s : string) : exn + Z :=
  let invalid := inl (ValueError ("invalid literal for int() with base 10: '"
                                  +:+ s +:+ "'")) in
  match s with
  | EmptyString => invalid
  | String "-" EmptyString => invalid
  | String "-" s' => match digits 0 s' with Some n => inr (- n) | None => invalid end
  | _ => match digits 0 s with Some n => inr n | None => invalid end
  end.

(** A password check that accepts the hashes of [alice] and [bob]. *)
Definition verify_example (password hash : string) : exn + bool :=
  inr (String.eqb hash ("$2b$12$hash-of-" +:+ password)).

(** A token that spells out its claims. *)
Definition encode_example (c : userLogin_service.Claims) (key algorithm : string)
  : string :=
  algorithm +:+ "." +:+ str_int (userLogin_service.claim_user_id c)
  +:+ "." +:+ userLogin_service.claim_role c.

(** ** An [interpretEmoji] call in flight *)

(** The call after the provider answered with meaning [m]: about to create
    the record. *)
Definition creating (c m : string)
  : prog interpretEmoji_service.EmojiInterpretationResponse :=
  meaning ← try_except
              (emoji_entry ← await (Emoji_create c m); mret m)
              (fun e =>
                 emoji_entry ← call (Emoji_find_unique c);
                 mret (match emoji_entry with
                       | Some emoji_entry => prisma.meaning emoji_entry
                       | None => m
                       end));
  mret {| interpretEmoji_service.meaning := meaning |}.

(** The call after its creation was refused: about to re-read the record. *)
Definition reading (c m : string)
  : prog interpretEmoji_service.EmojiInterpretationResponse :=
  meaning ← (emoji_entry ← call (Emoji_find_unique c);
             mret (match emoji_entry with
                   | Some emoji_entry => prisma.meaning emoji_entry
                   | None => m
                   end));
  mret {| interpretEmoji_service.meaning := meaning |}.

(** Where a call for character [c] can be, and what the store holds then. *)
Inductive phase (c : string) (w : World)
  : prog interpretEmoji_service.EmojiInterpretationResponse -> Prop :=
| phase_start : phase c w (interpretEmoji_service.interpretEmoji c)
| phase_creating (m : string) : phase c w (creating c m)
| phase_reading (m : string) (e : Emoji) :
    Emoji_by_character c (emojis (db w)) = Some e -> phase c w (reading c m)
| phase_done (e : Emoji) :
    Emoji_by_character c (emojis (db w)) = Some e ->
    phase c w (Ret {| interpretEmoji_service.meaning := prisma.meaning e |}).

(** The provider answers every call with status 200 and a meaning. *)
Definition answers_with_meaning (w : World) : Prop :=
  forall n r, exists response d m,
    provider w n r = inr response
    /\ httpx.status_code response = 200
    /\ httpx.payload response = Some d
    /\ d !! "meaning" = Some m.

(** The stored records of a character. *)
Definition records_of (c : string) (es : list Emoji) : list Emoji :=
  List.filter (fun e => String.eqb (character e) c) es.

(** The store holds at most one record of [c], and the provider answers. *)
Definition race_ok (c : string) (w : World) : Prop :=
  answers_with_meaning w /\ (length (records_of c (emojis (db w))) <= 1)%nat.

(** The record [w] holds for [c], if any, is still the one [w'] holds. *)
Definition keeps (c : string) (w w' : World) : Prop :=
  forall e, Emoji_by_character c (emojis (db w)) = Some e ->
            Emoji_by_character c (emojis (db w')) = Some e.

(** Left alone from [w], call [p] returns the meaning of the record of [c]
    that the store then holds. *)
Definition settles (c : string) (w : World)
    (p : prog interpretEmoji_service.EmojiInterpretationResponse) : Prop :=
  exists e,
    fst (run p w) = Returned {| interpretEmoji_service.meaning := prisma.meaning e |}
    /\ Emoji_by_character c (emojis (db (snd (run p w)))) = Some e
    /\ race_ok c (snd (run p w))
    /\ keeps c w (snd (run p w)).

(** ** Reading responses off a run *)

(** The details a [fetchFeedback] call returns (none when it raises). *)
Definition page_of (w : World) (page limit : Z)
  : list fetchFeedback_service.FeedbackDetail :=
  match fst (run (fetchFeedback_service.fetchFeedback page limit) w) with
  | Returned r => fetchFeedback_service.feedbacks r
  | Raised _ => []
  end.

(** [total_pages] as [fetchFeedback] computes it. *)
Definition pages_of (w : World) (limit : Z) : Z :=
  (Z.of_nat (length (feedbacks (db w))) + limit - 1) / limit.

(** ** The rest of the gateway

    The handlers below use calls the ones above do not: listing the emojis,
    reading an emoji by id, creating a feedback row, reading a user with its
    feedback and sessions, and the clock.  They are added around the calls
    above ([Base]), over a state that extends the world. *)

Record Session : Type := mkSession { session_userId : Z; expiresAt : Z }.

(** The state these calls need besides the world: the sessions, the values
    the database gives to the columns of a new feedback row that [create] is
    not given ([id], [createdAt], [reviewed]), and the clock
    [datetime.datetime.now()] reads, by the number of readings so far. *)
Record Gateway : Type := mkGateway
  { base : World;
    sessions : list Session;
    feedback_seq : Z;
    feedback_createdAt : Z;
    feedback_reviewed : bool;
    clock : nat -> Z;
    clock_reads : nat }.

Definition set_base (g : Gateway) (w : World) : Gateway :=
  {| base := w; sessions := sessions g; feedback_seq := feedback_seq g;
     feedback_createdAt := feedback_createdAt g;
     feedback_reviewed := feedback_reviewed g;
     clock := clock g; clock_reads := clock_reads g |}.

(** A user as [find_unique(include={"feedbacks": True, "sessions": True})]
    returns it. *)
Record UserRow : Type := mkUserRow
  { user_row : User; user_feedbacks : list Feedback; user_sessions : list Session }.

Inductive gop : Type -> Type :=
| Base {X : Type} (o : op X) : gop X
| Emoji_find_many : gop (list Emoji)
| Emoji_find_unique_id (id : Z) : gop (option Emoji)
| Feedback_create (userId emojiId : Z) (content : string) : gop Feedback
| User_find_unique_include (id : Z) : gop (option UserRow)
| Datetime_now : gop Z.

Definition gperform {X : Type} (o : gop X) (g : Gateway) : X * Gateway :=
  let d := db (base g) in
  match o in gop X return X * Gateway with
  | Base o => let '(x, w') := perform o (base g) in (x, set_base g w')
  | Emoji_find_many => (emojis d, g)
  | Emoji_find_unique_id i => (Emoji_by_id i (emojis d), g)
  | Feedback_create u e c =>
      let f := mkFeedback (feedback_seq g) u e c
                 (feedback_createdAt g) (feedback_reviewed g) in
      (f, {| base := set_db (base g)
                       {| users := users d; emojis := emojis d;
                          emoji_seq := emoji_seq d;
                          feedbacks := feedbacks d ++ [f] |};
             sessions := sessions g; feedback_seq := feedback_seq g + 1;
             feedback_createdAt := feedback_createdAt g;
             feedback_reviewed := feedback_reviewed g;
             clock := clock g; clock_reads := clock_reads g |})
  | User_find_unique_include i =>
      (match User_by_id i (users d) with
       | Some u =>
           Some {| user_row := u;
                   user_feedbacks :=
                     List.filter (fun f => userId f =? i) (feedbacks d);
                   user_sessions :=
                     List.filter (fun s => session_userId s =? i) (sessions g) |}
       | None => None
       end, g)
  | Datetime_now =>
      (clock g (clock_reads g),
       {| base := base g; sessions := sessions g; feedback_seq := feedback_seq g;
          feedback_createdAt := feedback_createdAt g;
          feedback_reviewed := feedback_reviewed g;
          clock := clock g; clock_reads := S (clock_reads g) |})
  end.

Inductive gprog (R : Type) : Type :=
| GRet (r : R)
| GRaise (e : exn)
| GVis {X : Type} (o : gop X) (k : X -> gprog R).
Arguments GRet {R} r.
Arguments GRaise {R} e.
Arguments GVis {R X} o k.

Fixpoint gbind {A B : Type} (p : gprog A) (f : A -> gprog B) : gprog B :=
  match p with
  | GRet a => f a
  | GRaise e => GRaise e
  | GVis o k => GVis o (fun x => gbind (k x) f)
  end.

#[export] Instance gprog_ret : MRet gprog := @GRet.
#[export] Instance gprog_bind : MBind gprog := fun A B f p => gbind p f.

Definition gcall {X : Type} (o : gop X) : gprog X := GVis o GRet.

Fixpoint grun {R : Type} (p : gprog R) (g : Gateway) : outcome R * Gateway :=
  match p with
  | GRet r => (Returned r, g)
  | GRaise e => (Raised e, g)
  | GVis o k => let '(x, g') := gperform o g in grun (k x) g'
  end.

(** [if m:] on a model instance: a model is truthy. *)
Definition model_truthy {A : Type} (m : A) : bool := true.

(** ** getSupportedEmojis_service.py *)

Module getSupportedEmojis_service.


Record Emoji : Type := mkEmoji { character : string; meaning : string }.



End getSupportedEmojis_service.

(** ** submitFeedback_service.py *)

Module submitFeedback_service.

Record FeedbackResponseModel : Type := mkResp { success : bool; message : string }.

Definition submitFeedback (userId emojiId : Z) (content : string)
  : gprog FeedbackResponseModel :=
  user ← gcall (Base (User_find_unique userId));
  match user with
  | None => mret {| success := false; message := "User not found" |}
  | Some _ =>
      emoji ← gcall (Emoji_find_unique_id emojiId);
      match emoji with
      | None => mret {| success := false; message := "Emoji not found" |}
      | Some _ =>
          feedback ← gcall (Feedback_create userId emojiId content);
          if model_truthy feedback then
            mret {| success := true; message := "Feedback received successfully" |}
          else
            mret {| success := false; message := "Failed to submit feedback" |}
      end
  end.

End submitFeedback_service.

(** ** getUserDetails_service.py *)

Module getUserDetails_service.

(** [class Role(Enum): pass]: the class body declares no member. *)
Inductive Role : Set := .


Definition Role_members : list (string * Role) := [].

Definition validate_Role (v : prisma.Role) : exn + Role :=
  match List.find (fun m => String.eqb (fst m) (Role_name v)) Role_members with
  | Some m => inr (snd m)
  | None => inl (ValidationError "1 validation error for UserDetailsResponse: role")
  end.




End getUserDetails_service.

(** A gateway around a world, for the examples: no session, feedback ids
    from 4, new rows stamped 400 and not reviewed, a clock that stands at
    1000. *)
Definition gateway (w : World) : Gateway :=
  {| base := w; sessions := [mkSession 1 2000; mkSession 1 500; mkSession 2 3000];
     feedback_seq := 4; feedback_createdAt := 400; feedback_reviewed := false;
     clock := fun _ => 1000; clock_reads := 0 |}.


(** * Properties *)

Import fetchEmojiMeaning_service.

Ltac unfold_prog :=
  unfold mbind, prog_bind, mret, prog_ret, call, await, raise_for_status, json.

Ltac run_prog :=
  unfold_prog; cbn [run bind try_except perform fst snd]; unfold Emoji_insert.

(** ** The resolver with read-through: fetchEmojiMeaning *)

(** C2: for a character that already has a stored Emoji record,
    [fetchEmojiMeaning] returns the stored meaning and leaves the world as it
    was; in particular the log of provider calls has not grown, so no call
    to the provider was made. *)
Theorem fetchEmojiMeaning_stored (w : World) (c : string) (e : Emoji) :
  Emoji_by_character c (emojis (db w)) = Some e ->
  run (fetchEmojiMeaning c) w
  = (Returned {| emoji := c; explanation := prisma.meaning e |}, w)
  /\ http_log (snd (run (fetchEmojiMeaning c) w)) = http_log w.
Proof.
  intros Hstored.
  assert (Hrun : run (fetchEmojiMeaning c) w
                 = (Returned {| emoji := c; explanation := prisma.meaning e |}, w)).
  { unfold fetchEmojiMeaning. run_prog. now rewrite Hstored. }
  split; [exact Hrun | now rewrite Hrun].
Qed.

Lemma fetchEmojiMeaning_stored_witness :
  run (fetchEmojiMeaning grin) (world grin_db unreachable)
  = (Returned {| emoji := grin; explanation := "grinning face" |},
     world grin_db unreachable)
  /\ http_log (snd (run (fetchEmojiMeaning grin) (world grin_db unreachable))) = [].
Proof.
  apply (fetchEmojiMeaning_stored (world grin_db unreachable) grin
           (mkEmoji 1 grin "grinning face")).
  reflexivity.
Defined.

(** C1: two [fetchEmojiMeaning] calls for the same new character race.  Both
    miss the store before either creates the record; the first creation
    succeeds, the second is refused by the unique key and the handler turns
    that into a [ValueError] for its caller instead of reading the record
    the other caller stored. *)
Theorem fetchEmojiMeaning_race_surfaces_error :
  let '(first, second, w') :=
    run2 [true; false; true; false]
      (fetchEmojiMeaning grin) (fetchEmojiMeaning grin)
      (world empty_db (answers 200 {[ "explanation" := "grinning face" ]})) in
  first = Returned {| emoji := grin; explanation := "grinning face" |}
  /\ second = Raised (ValueError
       "An error occurred: Unique constraint failed on the fields: (`character`)")
  /\ emojis (db w') = [mkEmoji 1 grin "grinning face"].
Proof. vm_compute. repeat split. Qed.

Import interpretEmoji_service explainEmoji_service.


(** X3: On a failed provider call [fetchEmojiMeaning] raises a [ValueError],
    after one call, with the tables as they were. *)
Lemma fetchEmojiMeaning_provider_failure (w : World) (c : string) :
  Emoji_by_character c (emojis (db w)) = None ->
  provider_meaning "explanation" (next_answer w (fetch_request c)) = None ->
  exists msg,
    run (fetchEmojiMeaning c) w = (Raised (ValueError msg), logged w (fetch_request c)).
Proof.
  intros Hmiss Hfail.
  unfold fetchEmojiMeaning, logged. run_prog. rewrite Hmiss.
  unfold provider_meaning, next_answer, fetch_request in Hfail.
  cbn [run bind try_except perform fst snd].
  destruct (provider w _ _) as [e | response].
  - destruct e; cbn; eauto.
  - cbn [run bind try_except].
    destruct (httpx.is_success response); [| cbn; eauto].
    cbn [run bind try_except].
    destruct (httpx.payload response) as [d |]; [| cbn; eauto].
    cbn [run bind try_except]. rewrite Hfail. cbn. eauto.
Qed.

(** On a failed provider call [explainEmoji] returns a response whose
    [error] is set, after one call, with the tables as they were. *)
Lemma explainEmoji_provider_failure (w : World) (c : string) :
  provider_meaning "meaning" (next_answer w (explain_request c)) = None ->
  exists msg,
    run (explainEmoji c) w
    = (Returned {| explainEmoji_service.meaning := ""; error := Some msg |},
       logged w (explain_request c)).
Proof.
  intros Hfail.
  unfold explainEmoji, logged. run_prog.
  unfold provider_meaning, next_answer, explain_request in Hfail.
  destruct (provider w _ _) as [e | response].
  - destruct e; cbn; eauto.
  - cbn [run bind try_except].
    destruct (httpx.is_success response); [| cbn; eauto].
    cbn [run bind try_except].
    destruct (httpx.payload response) as [d |]; [| cbn; eauto].
    cbn [run bind try_except]. rewrite Hfail. cbn. eauto.
Qed.

(** X7: [interpretEmoji] on a status other than 200 answers with a fixed text,
    and lets an exception of the client through; the tables are as they
    were. *)
Lemma interpretEmoji_provider_failure (w : World) (c : string) :
  match next_answer w (interpret_request c) with
  | inl e => run (interpretEmoji c) w = (Raised e, logged w (interpret_request c))
  | inr response =>
      httpx.status_code response <> 200 ->
      run (interpretEmoji c) w
      = (Returned {| interpretEmoji_service.meaning := "Failed to interpret the emoji." |},
         logged w (interpret_request c))
  end.
Proof.
  unfold interpretEmoji, logged, next_answer, interpret_request. run_prog.
  destruct (provider w _ _) as [e | response]; [reflexivity |].
  intros Hcode. cbn [run bind].
  destruct (Z.eqb_spec (httpx.status_code response) 200); [contradiction | reflexivity].
Qed.

(** C3: [interpretEmoji] on a 200 answer whose payload lacks ["meaning"],
    for a character not yet stored: the handler returns the default text as
    the meaning and stores it as an Emoji record for the character. *)
Theorem interpretEmoji_missing_field_stores_placeholder
    (w : World) (c : string) (response : httpx.Response) (d : gmap string string) :
  next_answer w (interpret_request c) = inr response ->
  httpx.status_code response = 200 ->
  httpx.payload response = Some d ->
  d !! "meaning" = None ->
  Emoji_by_character c (emojis (db w)) = None ->
  fst (run (interpretEmoji c) w)
  = Returned {| interpretEmoji_service.meaning := "No interpretation found." |}
  /\ emojis (db (snd (run (interpretEmoji c) w)))
     = emojis (db w) ++ [mkEmoji (emoji_seq (db w)) c "No interpretation found."].
Proof.
  intros Hanswer Hcode Hpayload Hfield Hmiss.
  unfold interpretEmoji, next_answer, interpret_request in *. run_prog.
  rewrite Hanswer. cbn [run bind]. rewrite Hcode. cbn [Z.eqb Pos.eqb run bind].
  rewrite Hpayload. cbn [run bind try_except perform db]. unfold Emoji_insert. rewrite Hfield.
  cbn [default]. rewrite Hmiss. cbn. split; reflexivity.
Qed.

Lemma interpretEmoji_missing_field_stores_placeholder_witness :
  fst (run (interpretEmoji grin) (world empty_db (answers 200 ∅)))
  = Returned {| interpretEmoji_service.meaning := "No interpretation found." |}
  /\ emojis (db (snd (run (interpretEmoji grin) (world empty_db (answers 200 ∅)))))
     = [] ++ [mkEmoji 1 grin "No interpretation found."].
Proof.
  apply (interpretEmoji_missing_field_stores_placeholder
           (world empty_db (answers 200 ∅)) grin (httpx.mkResponse 200 "" (Some ∅)) ∅);
    reflexivity.
Defined.

(** ** The variants that do not read the store first *)

(** [explainEmoji] makes one provider call and touches no table, whatever
    the provider answers. *)
Lemma explainEmoji_world (w : World) (c : string) :
  snd (run (explainEmoji c) w) = logged w (explain_request c).
Proof.
  unfold explainEmoji, logged, explain_request. run_prog.
  destruct (provider w _ _) as [e | response].
  - destruct e; reflexivity.
  - cbn [run bind try_except].
    destruct (httpx.is_success response); [| reflexivity].
    cbn [run bind try_except].
    destruct (httpx.payload response) as [d |]; [| reflexivity].
    cbn [run bind try_except]. destruct (d !! "meaning"); reflexivity.
Qed.

Lemma explainEmoji_success (w : World) (c m : string) :
  provider_meaning "meaning" (next_answer w (explain_request c)) = Some m ->
  fst (run (explainEmoji c) w)
  = Returned {| explainEmoji_service.meaning := m; error := None |}.
Proof.
  unfold provider_meaning, next_answer, explain_request, explainEmoji. run_prog.
  destruct (provider w _ _) as [e | response]; [discriminate |].
  cbn [run bind try_except].
  destruct (httpx.is_success response); [| discriminate].
  cbn [run bind try_except].
  destruct (httpx.payload response) as [d |]; [| discriminate].
  cbn [run bind try_except]. intros ->. reflexivity.
Qed.

(** [interpretEmoji] makes one provider call, whatever else it does. *)
Lemma interpretEmoji_log (w : World) (c : string) :
  http_log (snd (run (interpretEmoji c) w)) = http_log w ++ [interpret_request c].
Proof.
  unfold interpretEmoji, interpret_request. run_prog.
  destruct (provider w _ _) as [e | response]; [reflexivity |].
  cbn [run bind]. destruct (_ =? 200); [| reflexivity].
  destruct (httpx.payload response) as [d |]; [| reflexivity].
  cbn [run bind try_except perform db]. unfold Emoji_insert.
  destruct (Emoji_by_character c (emojis (db w))); reflexivity.
Qed.

(** [interpretEmoji] on a 200 answer that carries a meaning: the record is
    created when the character is new; when the character is already stored
    the creation is refused, the table stays and the stored meaning is
    returned. *)
Lemma interpretEmoji_success
    (w : World) (c m : string) (response : httpx.Response) (d : gmap string string) :
  next_answer w (interpret_request c) = inr response ->
  httpx.status_code response = 200 ->
  httpx.payload response = Some d ->
  d !! "meaning" = Some m ->
  match Emoji_by_character c (emojis (db w)) with
  | None =>
      fst (run (interpretEmoji c) w)
      = Returned {| interpretEmoji_service.meaning := m |}
      /\ emojis (db (snd (run (interpretEmoji c) w)))
         = emojis (db w) ++ [mkEmoji (emoji_seq (db w)) c m]
  | Some stored =>
      fst (run (interpretEmoji c) w)
      = Returned {| interpretEmoji_service.meaning := prisma.meaning stored |}
      /\ emojis (db (snd (run (interpretEmoji c) w))) = emojis (db w)
  end.
Proof.
  intros Hanswer Hcode Hpayload Hfield.
  unfold interpretEmoji, next_answer, interpret_request in *. run_prog.
  rewrite Hanswer. cbn [run bind]. rewrite Hcode. cbn [Z.eqb Pos.eqb run bind].
  rewrite Hpayload. cbn [run bind try_except perform db]. unfold Emoji_insert. rewrite Hfield.
  cbn [default].
  destruct (Emoji_by_character c (emojis (db w))) as [stored |] eqn:Hstored.
  - cbn [run bind try_except perform db fst snd]. rewrite Hstored. cbn. auto.
  - cbn. auto.
Qed.

(** C4, as the spec states it, fails for [explainEmoji]: after a successful
    provider answer for a new character the handler has returned the meaning
    and the Emoji table is still empty. *)
Lemma explainEmoji_stores_nothing :
  let w := world empty_db (answers 200 {[ "meaning" := "grinning face" ]}) in
  fst (run (explainEmoji grin) w)
  = Returned {| explainEmoji_service.meaning := "grinning face"; error := None |}
  /\ ~ (exists e, In e (emojis (db (snd (run (explainEmoji grin) w))))
                  /\ character e = grin).
Proof.
  split; [reflexivity |].
  intros [e [Hin _]]. exact Hin.
Qed.

(** C4 (amended): both variants call the provider once without reading the
    store first.  [explainEmoji] returns the provider's meaning and leaves
    every table as it was.  [interpretEmoji], on a 200 answer carrying a
    meaning, stores it as a new Emoji record when the character is not yet
    stored; when it is, the table is unchanged and the stored meaning is
    returned. *)
Theorem bypass_variants (w : World) (c : string) :
  (http_log (snd (run (explainEmoji c) w)) = http_log w ++ [explain_request c]
   /\ db (snd (run (explainEmoji c) w)) = db w
   /\ forall m,
        provider_meaning "meaning" (next_answer w (explain_request c)) = Some m ->
        fst (run (explainEmoji c) w)
        = Returned {| explainEmoji_service.meaning := m; error := None |})
  /\ (http_log (snd (run (interpretEmoji c) w)) = http_log w ++ [interpret_request c]
      /\ forall response d m,
           next_answer w (interpret_request c) = inr response ->
           httpx.status_code response = 200 ->
           httpx.payload response = Some d ->
           d !! "meaning" = Some m ->
           match Emoji_by_character c (emojis (db w)) with
           | None =>
               fst (run (interpretEmoji c) w)
               = Returned {| interpretEmoji_service.meaning := m |}
               /\ emojis (db (snd (run (interpretEmoji c) w)))
                  = emojis (db w) ++ [mkEmoji (emoji_seq (db w)) c m]
           | Some stored =>
               fst (run (interpretEmoji c) w)
               = Returned {| interpretEmoji_service.meaning := prisma.meaning stored |}
               /\ emojis (db (snd (run (interpretEmoji c) w))) = emojis (db w)
           end).
Proof.
  split; [split; [| split] | split].
  - now rewrite explainEmoji_world.
  - now rewrite explainEmoji_world.
  - apply explainEmoji_success.
  - apply interpretEmoji_log.
  - intros response d m. apply interpretEmoji_success.
Qed.

Lemma bypass_variants_witness :
  let w := world grin_db (answers 200 {[ "meaning" := "smiley" ]}) in
  fst (run (explainEmoji grin) w)
  = Returned {| explainEmoji_service.meaning := "smiley"; error := None |}
  /\ fst (run (interpretEmoji grin) w)
     = Returned {| interpretEmoji_service.meaning := "grinning face" |}
  /\ emojis (db (snd (run (interpretEmoji grin) w))) = emojis grin_db.
Proof.
  intros w.
  destruct (bypass_variants w grin) as [[_ [_ Hexplain]] [_ Hinterpret]].
  split.
  - apply Hexplain. reflexivity.
  - apply (Hinterpret (httpx.mkResponse 200 "" (Some {[ "meaning" := "smiley" ]}))
             {[ "meaning" := "smiley" ]} "smiley"); reflexivity.
Defined.

(** ** Ordering of [find_many] *)

Lemma insert_desc_perm (f : Feedback) (l : list Feedback) :
  Permutation (insert_desc f l) (f :: l).
Proof.
  induction l as [| g l IH]; cbn [insert_desc]; [reflexivity |].
  destruct (createdAt g <=? createdAt f); [reflexivity |].
  rewrite IH. apply perm_swap.
Qed.

Lemma order_desc_perm (l : list Feedback) : Permutation (order_desc l) l.
Proof.
  induction l as [| f l IH]; cbn [order_desc fold_right]; [reflexivity |].
  fold (order_desc l). rewrite insert_desc_perm. now constructor.
Qed.

Lemma insert_desc_hd (f g : Feedback) (l : list Feedback) :
  newer_or_same g f -> HdRel newer_or_same g l ->
  HdRel newer_or_same g (insert_desc f l).
Proof.
  intros Hgf Hhd. destruct l as [| h l]; cbn [insert_desc]; [now constructor |].
  destruct (createdAt h <=? createdAt f); constructor; [exact Hgf |].
  now inversion Hhd.
Qed.

Lemma insert_desc_sorted (f : Feedback) (l : list Feedback) :
  newest_first l -> newest_first (insert_desc f l).
Proof.
  unfold newest_first. induction 1 as [| g l Hl IH Hhd]; cbn [insert_desc].
  - repeat constructor.
  - destruct (Z.leb_spec (createdAt g) (createdAt f)) as [Hle | Hgt].
    + constructor; [now constructor |]. constructor. exact Hle.
    + constructor; [exact IH |].
      apply insert_desc_hd; [unfold newer_or_same; lia | exact Hhd].
Qed.

Lemma order_desc_sorted (l : list Feedback) : newest_first (order_desc l).
Proof.
  induction l as [| f l IH]; cbn [order_desc fold_right]; [constructor |].
  now apply insert_desc_sorted.
Qed.

Lemma In_firstn {A : Type} (n : nat) (l : list A) (x : A) :
  In x (firstn n l) -> In x l.
Proof. intros H. rewrite <- (firstn_skipn n l). apply in_or_app. now left. Qed.

Lemma In_skipn {A : Type} (n : nat) (l : list A) (x : A) :
  In x (skipn n l) -> In x l.
Proof. intros H. rewrite <- (firstn_skipn n l). apply in_or_app. now right. Qed.

Lemma newest_first_skipn (n : nat) (l : list Feedback) :
  newest_first l -> newest_first (skipn n l).
Proof.
  unfold newest_first. revert l.
  induction n as [| n IH]; intros l Hl; [exact Hl |].
  destruct l as [| f l]; [constructor |].
  cbn [skipn]. apply IH. now inversion Hl.
Qed.

Lemma newest_first_firstn (n : nat) (l : list Feedback) :
  newest_first l -> newest_first (firstn n l).
Proof.
  unfold newest_first. intros Hl. revert n.
  induction Hl as [| f l Hl IH Hhd]; intros n.
  - rewrite firstn_nil. constructor.
  - destruct n as [| n]; cbn [firstn]; constructor; [apply IH |].
    destruct Hhd as [| g l' Hfg]; destruct n; cbn [firstn]; now constructor.
Qed.

(** What [find_many] returns for a skip and a take that are not negative. *)
Lemma find_many_page (w : World) (wh : option Z) (s t : Z) (inc : Include)
    (ord : SortOrder) :
  0 <= s -> 0 <= t ->
  perform (Feedback_find_many wh (Some s) (Some t) inc ord) w
  = (inr (map (load inc (db w))
            (firstn (Z.to_nat t)
               (skipn (Z.to_nat s)
                  (order_by ord (where_userId wh (feedbacks (db w))))))), w).
Proof.
  intros Hs Ht. cbn [perform default from_option]. unfold id.
  destruct (Z.ltb_spec s 0); [lia |]. destruct (Z.ltb_spec t 0); [lia |].
  reflexivity.
Qed.

(** ** fetchFeedback *)


Lemma for_each_detail (d : Database) (l : list Feedback) :
  (forall f, In f l -> exists u, User_by_id (userId f) (users d) = Some u) ->
  exists ds,
    for_each fetchFeedback_service.detail
      (map (load {| include_user := true; include_emoji := false |} d) l) = Ret ds
    /\ Forall2 (joined_user d) l ds.
Proof.
  induction l as [| f l IH]; intros Hres.
  - exists []. split; [reflexivity | constructor].
  - destruct IH as [ds [Hds Hall]]; [intros g Hg; apply Hres; now right |].
    destruct (Hres f) as [u Hu]; [now left |].
    eexists. cbn [map for_each]. unfold mbind, prog_bind, mret, prog_ret.
    unfold fetchFeedback_service.detail at 1. cbn [load row_user include_user row]. rewrite Hu.
    cbn [bind]. rewrite Hds. cbn [bind]. split; [reflexivity |].
    constructor; [| exact Hall].
    unfold joined_user. cbn. repeat split. now exists u.
Qed.

Lemma ceil_pages (T L : Z) : 1 <= L -> is_ceil T L ((T + L - 1) / L).
Proof.
  intros HL. unfold is_ceil.
  pose proof (Z.div_mod (T + L - 1) L ltac:(lia)) as Hdiv.
  pose proof (Z.mod_pos_bound (T + L - 1) L ltac:(lia)) as Hmod.
  nia.
Qed.

(** C5: for a page number and a page size of at least 1, [fetchFeedback]
    returns the rows that follow the first [(page - 1) * limit] rows of the
    newest-first ordering of all feedback, at most [limit] of them, each with
    the email of the user it belongs to, and [totalPages] is the ceiling of
    the feedback count over [limit]. *)
Theorem fetchFeedback_page (w : World) (page limit : Z) :
  1 <= page -> 1 <= limit -> users_resolve (db w) ->
  exists (all records : list Feedback) (details : list fetchFeedback_service.FeedbackDetail) (pages : Z),
    run (fetchFeedback_service.fetchFeedback page limit) w
    = (Returned {| fetchFeedback_service.feedbacks := details;
                   fetchFeedback_service.totalPages := pages;
                   fetchFeedback_service.currentPage := page |}, w)
    /\ Permutation all (feedbacks (db w)) /\ newest_first all
    /\ records = firstn (Z.to_nat limit) (skipn (Z.to_nat ((page - 1) * limit)) all)
    /\ Z.of_nat (length records) <= limit
    /\ newest_first records
    /\ Forall2 (joined_user (db w)) records details
    /\ is_ceil (Z.of_nat (length (feedbacks (db w)))) limit pages.
Proof.
  intros Hpage Hlimit Hres.
  set (all := order_desc (feedbacks (db w))).
  set (records := firstn (Z.to_nat limit) (skipn (Z.to_nat ((page - 1) * limit)) all)).
  destruct (for_each_detail (db w) records) as [details [Hdetails Hjoined]].
  { intros f Hf. apply Hres. apply (Permutation_in f (order_desc_perm _)).
    apply (In_skipn (Z.to_nat ((page - 1) * limit))), (In_firstn (Z.to_nat limit)).
    exact Hf. }
  exists all, records, details,
    ((Z.of_nat (length (feedbacks (db w))) + limit - 1) / limit).
  split; [| repeat split].
  - unfold fetchFeedback_service.fetchFeedback. unfold_prog. cbn [run bind].
    rewrite find_many_page by nia. cbn [order_by where_userId run bind].
    fold all. fold records. cbn [perform]. cbn [run bind].
    unfold floordiv. destruct (Z.eqb_spec limit 0); [lia |].
    cbn [run bind]. rewrite Hdetails. reflexivity.
  - apply order_desc_perm.
  - apply order_desc_sorted.
  - subst records. rewrite length_firstn. lia.
  - subst records. apply newest_first_firstn, newest_first_skipn, order_desc_sorted.
  - exact Hjoined.
  - apply ceil_pages; lia.
  - apply ceil_pages; lia.
Qed.

Lemma fetchFeedback_page_witness :
  exists (all records : list Feedback)
         (details : list fetchFeedback_service.FeedbackDetail) (pages : Z),
    run (fetchFeedback_service.fetchFeedback 2 2) (world feedback_db unreachable)
    = (Returned {| fetchFeedback_service.feedbacks := details;
                   fetchFeedback_service.totalPages := pages;
                   fetchFeedback_service.currentPage := 2 |},
       world feedback_db unreachable)
    /\ Permutation all (feedbacks feedback_db) /\ newest_first all
    /\ records = firstn (Z.to_nat 2) (skipn (Z.to_nat ((2 - 1) * 2)) all)
    /\ Z.of_nat (length records) <= 2
    /\ newest_first records
    /\ Forall2 (joined_user feedback_db) records details
    /\ is_ceil (Z.of_nat (length (feedbacks feedback_db))) 2 pages.
Proof.
  apply (fetchFeedback_page (world feedback_db unreachable) 2 2); [lia | lia |].
  intros f Hf. cbn in Hf.
  destruct Hf as [<- | [<- | [<- | []]]]; eexists; reflexivity.
Defined.

(** ** deleteFeedback *)

(** C6: deleting a feedback whose [reviewed] flag is set is refused with the
    already-reviewed message, no delete is issued and the world (hence the
    record) is unchanged; and whenever [deleteFeedback] reports success, the
    record existed with [reviewed = false] and is gone afterwards. *)
Theorem deleteFeedback_reviewed_guard (w : World) (feedbackId : Z) :
  (forall f,
      Feedback_by_id feedbackId (feedbacks (db w)) = Some f ->
      reviewed f = true ->
      run (deleteFeedback_service.deleteFeedback feedbackId) w
      = (Returned
           {| deleteFeedback_service.success := false;
              deleteFeedback_service.message :=
                "Feedback " +:+ str_int feedbackId
                +:+ " has been reviewed and cannot be deleted" |}, w))
  /\ (forall r w',
         run (deleteFeedback_service.deleteFeedback feedbackId) w = (Returned r, w') ->
         deleteFeedback_service.success r = true ->
         exists f,
           Feedback_by_id feedbackId (feedbacks (db w)) = Some f
           /\ reviewed f = false
           /\ Feedback_by_id feedbackId (feedbacks (db w')) = None).
Proof.
  unfold deleteFeedback_service.deleteFeedback. run_prog. split.
  - intros f Hfind Hreviewed. rewrite Hfind, Hreviewed. reflexivity.
  - intros r w'.
    destruct (Feedback_by_id feedbackId (feedbacks (db w))) as [f |] eqn:Hfind.
    + destruct (reviewed f) eqn:Hreviewed.
      * cbn. intros [= <- <-]. discriminate.
      * cbn [run bind perform db fst snd]. rewrite Hfind. cbn [run].
        intros [= <- <-] _. exists f. split; [reflexivity |]. split; [exact Hreviewed |].
        cbn [db set_db feedbacks]. unfold Feedback_by_id.
        destruct (List.find _ (List.filter _ _)) as [g |] eqn:Hg; [| reflexivity].
        apply find_some in Hg as [Hin Heq]. apply filter_In in Hin as [_ Hne].
        rewrite Heq in Hne. discriminate.
    + cbn. intros [= <- <-]. discriminate.
Qed.

Lemma deleteFeedback_reviewed_guard_witness :
  run (deleteFeedback_service.deleteFeedback 2) (world feedback_db unreachable)
  = (Returned
       {| deleteFeedback_service.success := false;
          deleteFeedback_service.message :=
            "Feedback 2 has been reviewed and cannot be deleted" |},
     world feedback_db unreachable)
  /\ exists f,
       Feedback_by_id 1 (feedbacks feedback_db) = Some f
       /\ reviewed f = false
       /\ Feedback_by_id 1
            (feedbacks (db (snd (run (deleteFeedback_service.deleteFeedback 1)
                                   (world feedback_db unreachable))))) = None.
Proof.
  split.
  - apply (proj1 (deleteFeedback_reviewed_guard (world feedback_db unreachable) 2)
             (mkFeedback 2 2 2 "fun" 300 true)); reflexivity.
  - apply (proj2 (deleteFeedback_reviewed_guard (world feedback_db unreachable) 1)
             {| deleteFeedback_service.success := true;
                deleteFeedback_service.message := "Feedback 1 successfully deleted." |});
      reflexivity.
Defined.

(** ** deleteUser *)

(** C7: [deleteUser] looks the user up by the given id.  A missing user
    gives the not-found response (404); a user whose role is not ADMIN gives
    the unauthorized response (403); in both cases nothing is deleted and the
    world is unchanged.  A user whose role is ADMIN is deleted and the
    response has status 200; and status 200 is returned in no other case. *)
Theorem deleteUser_requires_admin
    (int : string -> exn + Z) (w : World) (userId : string) (n : Z) :
  int userId = inr n ->
  (User_by_id n (users (db w)) = None ->
   run (deleteUser_service.deleteUser int userId) w
   = (Returned {| deleteUser_service.message := "User not found.";
                  deleteUser_service.status := 404 |}, w))
  /\ (forall user,
         User_by_id n (users (db w)) = Some user ->
         user_role user <> ADMIN ->
         run (deleteUser_service.deleteUser int userId) w
         = (Returned
              {| deleteUser_service.message :=
                   "Unauthorized access. Only admin users can delete accounts.";
                 deleteUser_service.status := 403 |}, w))
  /\ (forall user,
         User_by_id n (users (db w)) = Some user ->
         user_role user = ADMIN ->
         exists w',
           run (deleteUser_service.deleteUser int userId) w
           = (Returned {| deleteUser_service.message := "User successfully deleted.";
                          deleteUser_service.status := 200 |}, w')
           /\ User_by_id n (users (db w')) = None
           /\ (forall u, In u (users (db w')) <-> In u (users (db w)) /\ user_id u <> n))
  /\ (forall r w',
         run (deleteUser_service.deleteUser int userId) w = (Returned r, w') ->
         deleteUser_service.status r = 200 ->
         exists user,
           User_by_id n (users (db w)) = Some user /\ user_role user = ADMIN).
Proof.
  intros Hint.
  assert (Hdeleted :
            forall u,
              In u (List.filter (fun u => negb (user_id u =? n)) (users (db w)))
              <-> In u (users (db w)) /\ user_id u <> n).
  { intros u. rewrite filter_In.
    destruct (Z.eqb_spec (user_id u) n); cbn [negb]; intuition congruence. }
  unfold deleteUser_service.deleteUser, deleteUser_service.int_. run_prog.
  rewrite Hint. cbn [run bind perform db fst snd].
  split; [| split; [| split]].
  - intros ->. reflexivity.
  - intros user -> Hrole. destruct (user_role user); [contradiction | |]; reflexivity.
  - intros user -> ->. cbn [Role_eqb negb run bind perform]. eexists.
    split; [reflexivity |]. cbn [db set_db users]. split; [| exact Hdeleted].
    unfold User_by_id.
    destruct (List.find _ (List.filter _ _)) as [g |] eqn:Hg; [| reflexivity].
    apply find_some in Hg as [Hin Heq]. apply Hdeleted in Hin as [_ Hne].
    apply Z.eqb_eq in Heq. contradiction.
  - intros r w'.
    destruct (User_by_id n (users (db w))) as [user |];
      [| intros [= <- <-] Hstatus; discriminate Hstatus].
    destruct (user_role user) eqn:Hrole; cbn [Role_eqb negb].
    + intros _ _. now exists user.
    + intros [= <- <-] Hstatus; discriminate Hstatus.
    + intros [= <- <-] Hstatus; discriminate Hstatus.
Qed.

Lemma deleteUser_requires_admin_witness :
  run (deleteUser_service.deleteUser int_decimal "1") (world feedback_db unreachable)
  = (Returned
       {| deleteUser_service.message :=
            "Unauthorized access. Only admin users can delete accounts.";
          deleteUser_service.status := 403 |}, world feedback_db unreachable)
  /\ exists w',
       run (deleteUser_service.deleteUser int_decimal "2") (world feedback_db unreachable)
       = (Returned {| deleteUser_service.message := "User successfully deleted.";
                      deleteUser_service.status := 200 |}, w')
       /\ User_by_id 2 (users (db w')) = None
       /\ (forall u, In u (users (db w')) <-> In u (users feedback_db) /\ user_id u <> 2).
Proof.
  split.
  - apply (proj1 (proj2 (deleteUser_requires_admin int_decimal
                           (world feedback_db unreachable) "1" 1 eq_refl)) alice);
      [reflexivity | discriminate].
  - apply (proj1 (proj2 (proj2 (deleteUser_requires_admin int_decimal
                                  (world feedback_db unreachable) "2" 2 eq_refl))) bob);
      reflexivity.
Defined.

(** X14: A [userId] that [int] rejects is an exception before any lookup. *)
Lemma deleteUser_not_a_number
    (int : string -> exn + Z) (w : World) (userId : string) (e : exn) :
  int userId = inl e ->
  run (deleteUser_service.deleteUser int userId) w = (Raised e, w).
Proof.
  intros Hint. unfold deleteUser_service.deleteUser, deleteUser_service.int_.
  run_prog. now rewrite Hint.
Qed.

(** ** checkApiStatus *)

(** C9: [checkApiStatus] makes one call to the status URL and always returns
    a response.  When the provider answers, the response carries the
    provider's status, with the operational message exactly when that status
    is 200 and the issues message otherwise; when the call raises, the
    response has status 503 and the exception's text. *)
Theorem checkApiStatus_never_raises
    (w : World) (request : checkApiStatus_service.GetApiStatusRequest) :
  exists r,
    run (checkApiStatus_service.checkApiStatus request) w
    = (Returned r, logged w status_request)
    /\ match next_answer w status_request with
       | inr response =>
           checkApiStatus_service.status_code r = httpx.status_code response
           /\ (httpx.status_code response = 200 ->
               checkApiStatus_service.message r = "API is operational.")
           /\ (httpx.status_code response <> 200 ->
               checkApiStatus_service.message r = "API is experiencing issues.")
           /\ (checkApiStatus_service.message r = "API is operational."
               <-> httpx.status_code response = 200)
       | inl e =>
           checkApiStatus_service.status_code r = 503
           /\ checkApiStatus_service.message r = str_exn e
       end.
Proof.
  unfold checkApiStatus_service.checkApiStatus, next_answer, status_request, logged.
  run_prog.
  destruct (provider w _ _) as [e | response].
  - destruct e; eexists; (split; [reflexivity |]); cbn; auto.
  - eexists. split; [reflexivity |]. cbn.
    destruct (Z.eqb_spec (httpx.status_code response) 200) as [Heq | Hne].
    + repeat split; auto. contradiction.
    + repeat split; auto; try contradiction. discriminate.
Qed.

(** ** getHistory *)

Lemma for_each_details (d : Database) (l : list Feedback) :
  (forall f, In f l -> exists e, Emoji_by_id (emojiId f) (emojis d) = Some e) ->
  exists ds,
    for_each getHistory_service.details
      (map (load {| include_user := false; include_emoji := true |} d) l) = Ret ds
    /\ Forall2 (joined_emoji d) l ds.
Proof.
  induction l as [| f l IH]; intros Hres.
  - exists []. split; [reflexivity | constructor].
  - destruct IH as [ds [Hds Hall]]; [intros g Hg; apply Hres; now right |].
    destruct (Hres f) as [e He]; [now left |].
    eexists. cbn [map for_each]. unfold mbind, prog_bind, mret, prog_ret.
    unfold getHistory_service.details at 1.
    cbn [load row_emoji include_emoji row]. rewrite He.
    cbn [bind]. rewrite Hds. cbn [bind]. split; [reflexivity |].
    constructor; [| exact Hall].
    exists e. cbn. auto.
Qed.

(** C10: whatever the request, [getHistory] returns the feedback rows whose
    [userId] is 1, newest first, each mapped to the character and meaning of
    the emoji it is about; the request has no influence on the result. *)
Theorem getHistory_user_1 (w : World) (request : getHistory_service.HistoryRequest) :
  emojis_resolve (db w) ->
  exists (rows : list Feedback) (recent : list getHistory_service.EmojiDetails),
    run (getHistory_service.getHistory request) w
    = (Returned {| getHistory_service.recent_emojis := recent |}, w)
    /\ Permutation rows (List.filter (fun f => userId f =? 1) (feedbacks (db w)))
    /\ newest_first rows
    /\ Forall2 (joined_emoji (db w)) rows recent
    /\ forall request',
         run (getHistory_service.getHistory request') w
         = run (getHistory_service.getHistory request) w.
Proof.
  intros Hres.
  set (rows := order_desc (List.filter (fun f => userId f =? 1) (feedbacks (db w)))).
  destruct (for_each_details (db w) rows) as [recent [Hrecent Hjoined]].
  { intros f Hf. apply Hres.
    apply (Permutation_in f (order_desc_perm _)) in Hf.
    now apply filter_In in Hf as [Hf _]. }
  exists rows, recent. split; [| repeat split].
  - unfold getHistory_service.getHistory. unfold_prog.
    cbn [run bind perform default from_option where_userId order_by].
    change (0 <? 0) with false. cbn [orb run bind]. fold rows.
    change (drop (Z.to_nat 0) rows) with rows. rewrite Hrecent. reflexivity.
  - apply order_desc_perm.
  - apply order_desc_sorted.
  - exact Hjoined.
Qed.

Lemma getHistory_user_1_witness :
  exists (rows : list Feedback) (recent : list getHistory_service.EmojiDetails),
    run (getHistory_service.getHistory getHistory_service.mkHistoryRequest)
      (world feedback_db unreachable)
    = (Returned {| getHistory_service.recent_emojis := recent |},
       world feedback_db unreachable)
    /\ Permutation rows (List.filter (fun f => userId f =? 1) (feedbacks feedback_db))
    /\ newest_first rows
    /\ Forall2 (joined_emoji feedback_db) rows recent
    /\ forall request',
         run (getHistory_service.getHistory request') (world feedback_db unreachable)
         = run (getHistory_service.getHistory getHistory_service.mkHistoryRequest)
             (world feedback_db unreachable).
Proof.
  apply (getHistory_user_1 (world feedback_db unreachable)
           getHistory_service.mkHistoryRequest).
  intros f Hf. cbn in Hf.
  destruct Hf as [<- | [<- | [<- | []]]]; eexists; reflexivity.
Defined.

(** ** userLogin *)

Section Login.

Variable bcrypt_verify : string -> string -> exn + bool.
Variable jwt_encode : userLogin_service.Claims -> string -> string -> string.

(** No value validates as a [Role]: the enumeration has no member. *)
Lemma validate_Role_fails (v : prisma.Role) :
  userLogin_service.validate_Role v
  = inl (ValidationError "1 validation error for UserDetails: role").
Proof. reflexivity. Qed.

(** X16: A missing user and a password that does not match fail alike. *)
Lemma userLogin_invalid_credentials (w : World) (email password : string) :
  match User_by_email email (users (db w)) with
  | None => True
  | Some user => bcrypt_verify password (user_password user) = inr false
  end ->
  run (userLogin_service.userLogin bcrypt_verify jwt_encode email password) w
  = (Raised (ValueError "Invalid email or password"), w).
Proof.
  unfold userLogin_service.userLogin, userLogin_service.verify. run_prog.
  destruct (User_by_email email (users (db w))) as [user |]; [| reflexivity].
  intros ->. reflexivity.
Qed.

(** C8: a login with the email of a stored user and a password that
    matches the stored hash does not return: building the [UserDetails] of
    the response fails validation, because [Role] declares no member, and
    the token signed just before is dropped.  The world is unchanged. *)
Theorem userLogin_correct_credentials_raise
    (w : World) (email password : string) (user : User) :
  User_by_email email (users (db w)) = Some user ->
  bcrypt_verify password (user_password user) = inr true ->
  run (userLogin_service.userLogin bcrypt_verify jwt_encode email password) w
  = (Raised (ValidationError "1 validation error for UserDetails: role"), w).
Proof.
  intros Huser Hverify.
  unfold userLogin_service.userLogin, userLogin_service.verify. run_prog.
  rewrite Huser, Hverify. reflexivity.
Qed.

(** No login returns a response at all. *)
Lemma userLogin_never_returns (w w' : World) (email password : string)
    (r : userLogin_service.LoginResponse) :
  run (userLogin_service.userLogin bcrypt_verify jwt_encode email password) w
  <> (Returned r, w').
Proof. destruct (userLogin_service.role (userLogin_service.userDetails r)). Qed.

End Login.

Lemma userLogin_correct_credentials_raise_witness :
  run (userLogin_service.userLogin verify_example encode_example "a@x.com" "pw")
    (world feedback_db unreachable)
  = (Raised (ValidationError "1 validation error for UserDetails: role"),
     world feedback_db unreachable).
Proof.
  apply (userLogin_correct_credentials_raise verify_example encode_example
           (world feedback_db unreachable) "a@x.com" "pw" alice); reflexivity.
Defined.

(** ** Two [interpretEmoji] calls racing on one character *)

Section Race.

Variable c : string.

Lemma by_character_records (es : list Emoji) :
  Emoji_by_character c es = hd_error (records_of c es).
Proof.
  unfold Emoji_by_character, records_of.
  induction es as [| e es IH]; [reflexivity |].
  cbn [List.find List.filter].
  destruct (String.eqb (character e) c); [reflexivity | exact IH].
Qed.

Lemma records_of_created (es : list Emoji) (e : Emoji) :
  Emoji_by_character c es = None -> character e = c ->
  records_of c (es ++ [e]) = [e].
Proof.
  intros Hnone Hc. rewrite by_character_records in Hnone.
  unfold records_of in *. rewrite List.filter_app.
  destruct (List.filter _ es); [| discriminate].
  cbn [List.filter app]. rewrite Hc, String.eqb_refl. reflexivity.
Qed.

(** *** The steps of a call *)

Lemma step_start (w : World) (response : httpx.Response) (d : gmap string string)
    (m : string) :
  next_answer w (interpret_request c) = inr response ->
  httpx.status_code response = 200 ->
  httpx.payload response = Some d ->
  d !! "meaning" = Some m ->
  step (interpretEmoji c) w = (creating c m, logged w (interpret_request c)).
Proof.
  intros Hanswer Hcode Hpayload Hfield.
  unfold interpretEmoji, next_answer, interpret_request in *.
  unfold_prog. cbn [step bind perform db]. rewrite Hanswer.
  cbn [bind]. rewrite Hcode. cbn [Z.eqb Pos.eqb bind]. rewrite Hpayload.
  cbn [bind]. rewrite Hfield. reflexivity.
Qed.

Lemma step_creating_stored (w : World) (m : string) (e : Emoji) :
  Emoji_by_character c (emojis (db w)) = Some e ->
  step (creating c m) w = (reading c m, w).
Proof.
  intros Hstored. unfold creating, reading. unfold_prog.
  cbn [step bind try_except perform db]. unfold Emoji_insert. rewrite Hstored. reflexivity.
Qed.

Lemma step_creating_new (w : World) (m : string) :
  Emoji_by_character c (emojis (db w)) = None ->
  step (creating c m) w
  = (Ret {| interpretEmoji_service.meaning := m |},
     set_db w {| users := users (db w);
                 emojis := emojis (db w) ++ [mkEmoji (emoji_seq (db w)) c m];
                 emoji_seq := emoji_seq (db w) + 1;
                 feedbacks := feedbacks (db w) |}).
Proof.
  intros Hnew. unfold creating. unfold_prog.
  cbn [step bind try_except perform db]. unfold Emoji_insert. rewrite Hnew. reflexivity.
Qed.

Lemma step_reading (w : World) (m : string) (e : Emoji) :
  Emoji_by_character c (emojis (db w)) = Some e ->
  step (reading c m) w
  = (Ret {| interpretEmoji_service.meaning := prisma.meaning e |}, w).
Proof.
  intros Hstored. unfold reading. unfold_prog.
  cbn [step bind perform db]. rewrite Hstored. reflexivity.
Qed.

(** One step of a call in flight keeps the invariant, moves the call to a
    next phase, and keeps the record of [c] if there is one. *)
Lemma step_phase (w : World)
    (p : prog interpretEmoji_service.EmojiInterpretationResponse) :
  race_ok c w -> phase c w p ->
  race_ok c (snd (step p w))
  /\ phase c (snd (step p w)) (fst (step p w))
  /\ keeps c w (snd (step p w)).
Proof.
  intros [Hanswers Hone] Hphase.
  destruct Hphase as [| m | m e Hstored | e Hstored].
  - destruct (Hanswers (length (http_log w)) (interpret_request c))
      as (response & d & m & Hanswer & Hcode & Hpayload & Hfield).
    rewrite (step_start w response d m Hanswer Hcode Hpayload Hfield).
    cbn [fst snd]. split; [now split |]. split; [constructor |].
    intros e' He'. exact He'.
  - destruct (Emoji_by_character c (emojis (db w))) as [e |] eqn:Hstored.
    + rewrite (step_creating_stored w m e Hstored). cbn [fst snd].
      split; [now split |]. split; [now apply (phase_reading c w m e) |].
      intros e' He'. exact He'.
    + rewrite (step_creating_new w m Hstored). cbn [fst snd].
      assert (Hrecords : records_of c (emojis (db w) ++ [mkEmoji (emoji_seq (db w)) c m])
                         = [mkEmoji (emoji_seq (db w)) c m])
        by now apply records_of_created.
      split; [split; [exact Hanswers |] |]; [| split].
      * cbn [db set_db emojis]. rewrite Hrecords. cbn. lia.
      * apply (phase_done c _ (mkEmoji (emoji_seq (db w)) c m)).
        cbn [db set_db emojis]. now rewrite by_character_records, Hrecords.
      * intros e' He'. rewrite Hstored in He'. discriminate.
  - rewrite (step_reading w m e Hstored). cbn [fst snd].
    split; [now split |]. split; [now apply phase_done |]. intros e' He'. exact He'.
  - cbn [step fst snd].
    split; [now split |]. split; [now apply phase_done |]. intros e' He'. exact He'.
Qed.

(** A step of one call leaves the other call in its phase. *)
Lemma phase_keeps (w w' : World)
    (q : prog interpretEmoji_service.EmojiInterpretationResponse) :
  keeps c w w' -> phase c w q -> phase c w' q.
Proof.
  intros Hkeeps Hphase. destruct Hphase as [| m | m e Hstored | e Hstored].
  - constructor.
  - constructor.
  - apply (phase_reading c w' m e). now apply Hkeeps.
  - apply phase_done. now apply Hkeeps.
Qed.

Lemma run_step {R : Type} (p : prog R) (w : World) :
  run p w = run (fst (step p w)) (snd (step p w)).
Proof.
  destruct p as [r | e | X o k]; cbn [run step fst snd]; try reflexivity.
  destruct (perform o w). reflexivity.
Qed.

(** *** A call left alone *)

Lemma settles_done (w : World) (e : Emoji) :
  race_ok c w -> Emoji_by_character c (emojis (db w)) = Some e ->
  settles c w (Ret {| interpretEmoji_service.meaning := prisma.meaning e |}).
Proof.
  intros Hok Hstored. exists e. cbn [run fst snd].
  repeat split; try apply Hok; auto. intros e' He'. exact He'.
Qed.

Lemma settles_step (w : World)
    (p : prog interpretEmoji_service.EmojiInterpretationResponse) :
  keeps c w (snd (step p w)) ->
  settles c (snd (step p w)) (fst (step p w)) -> settles c w p.
Proof.
  intros Hkeeps (e & Hr & He & Hok & Hkeeps'). exists e.
  rewrite (run_step p w). repeat split; try apply Hok; auto.
  intros e' He'. now apply Hkeeps', Hkeeps.
Qed.

Lemma settles_reading (w : World) (m : string) (e : Emoji) :
  race_ok c w -> Emoji_by_character c (emojis (db w)) = Some e ->
  settles c w (reading c m).
Proof.
  intros Hok Hstored.
  destruct (step_phase w (reading c m) Hok (phase_reading c w m e Hstored))
    as (Hok' & _ & Hkeeps).
  apply settles_step; [exact Hkeeps |].
  rewrite (step_reading w m e Hstored) in *. now apply settles_done.
Qed.

Lemma settles_creating (w : World) (m : string) :
  race_ok c w -> settles c w (creating c m).
Proof.
  intros Hok.
  destruct (step_phase w (creating c m) Hok (phase_creating c w m))
    as (Hok' & Hphase & Hkeeps).
  apply settles_step; [exact Hkeeps |].
  destruct (Emoji_by_character c (emojis (db w))) as [e |] eqn:Hstored.
  - rewrite (step_creating_stored w m e Hstored) in *. cbn [fst snd].
    now apply (settles_reading w m e).
  - rewrite (step_creating_new w m Hstored) in *. cbn [fst snd] in *.
    apply (settles_done _ (mkEmoji (emoji_seq (db w)) c m)); [exact Hok' |].
    cbn [db set_db emojis].
    rewrite by_character_records, records_of_created; auto.
Qed.

Lemma settles_phase (w : World)
    (p : prog interpretEmoji_service.EmojiInterpretationResponse) :
  race_ok c w -> phase c w p -> settles c w p.
Proof.
  intros Hok Hphase. destruct Hphase as [| m | m e Hstored | e Hstored].
  - destruct (step_phase w _ Hok (phase_start c w)) as (Hok' & _ & Hkeeps).
    apply settles_step; [exact Hkeeps |].
    destruct (proj1 Hok (length (http_log w)) (interpret_request c))
      as (response & d & m & Hanswer & Hcode & Hpayload & Hfield).
    rewrite (step_start w response d m Hanswer Hcode Hpayload Hfield) in *.
    cbn [fst snd] in *. now apply settles_creating.
  - now apply settles_creating.
  - now apply (settles_reading w m e).
  - now apply settles_done.
Qed.

(** Whatever the schedule, two calls in flight for [c] both return the
    meaning of the one record of [c] the store holds afterwards. *)
Lemma run2_phase (sched : list bool) (w : World)
    (p q : prog interpretEmoji_service.EmojiInterpretationResponse) :
  race_ok c w -> phase c w p -> phase c w q ->
  exists e,
    run2 sched p q w
    = (Returned {| interpretEmoji_service.meaning := prisma.meaning e |},
       Returned {| interpretEmoji_service.meaning := prisma.meaning e |},
       snd (run2 sched p q w))
    /\ records_of c (emojis (db (snd (run2 sched p q w)))) = [e].
Proof.
  revert w p q. induction sched as [| b sched IH]; intros w p q Hok Hp Hq.
  - cbn [run2].
    destruct (settles_phase w p Hok Hp) as (e1 & Hr1 & He1 & Hok1 & Hkeeps1).
    destruct (run p w) as [a w1]. cbn [fst snd] in *.
    destruct (settles_phase w1 q Hok1 (phase_keeps w w1 q Hkeeps1 Hq))
      as (e2 & Hr2 & He2 & Hok2 & Hkeeps2).
    destruct (run q w1) as [b w2]. cbn [fst snd] in *.
    exists e2. apply Hkeeps2 in He1. rewrite He1 in He2. injection He2 as ->.
    split; [now rewrite Hr1, Hr2 |].
    rewrite by_character_records in He1. destruct Hok2 as [_ Hone].
    destruct (records_of c (emojis (db w2))) as [| e [| e' l]];
      [discriminate | now injection He1 as -> | cbn in Hone; lia].
  - destruct b; cbn [run2].
    + destruct (step_phase w p Hok Hp) as (Hok' & Hp' & Hkeeps).
      destruct (step p w) as [p' w']. cbn [fst snd] in *.
      apply IH; [exact Hok' | exact Hp' | exact (phase_keeps w w' q Hkeeps Hq)].
    + destruct (step_phase w q Hok Hq) as (Hok' & Hq' & Hkeeps).
      destruct (step q w) as [q' w']. cbn [fst snd] in *.
      apply IH; [exact Hok' | exact (phase_keeps w w' p Hkeeps Hp) | exact Hq'].
Qed.

End Race.

(** X9: The sibling of [fetchEmojiMeaning]: two [interpretEmoji] calls for the
    same character, under any schedule, with a provider that answers both,
    on a store with at most one record of the character.  Neither caller
    sees an error, one record of the character exists afterwards and both
    callers get its meaning. *)
Lemma interpretEmoji_race (sched : list bool) (w : World) (c : string) :
  answers_with_meaning w ->
  (length (records_of c (emojis (db w))) <= 1)%nat ->
  exists e,
    run2 sched (interpretEmoji c) (interpretEmoji c) w
    = (Returned {| interpretEmoji_service.meaning := prisma.meaning e |},
       Returned {| interpretEmoji_service.meaning := prisma.meaning e |},
       snd (run2 sched (interpretEmoji c) (interpretEmoji c) w))
    /\ records_of c
         (emojis (db (snd (run2 sched (interpretEmoji c) (interpretEmoji c) w))))
       = [e].
Proof.
  intros Hanswers Hone.
  apply run2_phase; [split; assumption | constructor | constructor].
Qed.

Example interpretEmoji_race_grin :
  exists e,
    run2 [true; false; false; true] (interpretEmoji grin) (interpretEmoji grin)
      (world empty_db (answers 200 {[ "meaning" := "grinning face" ]}))
    = (Returned {| interpretEmoji_service.meaning := prisma.meaning e |},
       Returned {| interpretEmoji_service.meaning := prisma.meaning e |},
       snd (run2 [true; false; false; true] (interpretEmoji grin) (interpretEmoji grin)
              (world empty_db (answers 200 {[ "meaning" := "grinning face" ]}))))
    /\ records_of grin
         (emojis (db (snd (run2 [true; false; false; true]
                             (interpretEmoji grin) (interpretEmoji grin)
                             (world empty_db
                                (answers 200 {[ "meaning" := "grinning face" ]}))))))
       = [e].
Proof.
  apply interpretEmoji_race.
  - intros n r. exists (httpx.mkResponse 200 "" (Some {[ "meaning" := "grinning face" ]})),
      {[ "meaning" := "grinning face" ]}, "grinning face". repeat split.
  - cbn. lia.
Defined.

(** * Further properties of the handlers *)

(** ** fetchEmojiMeaning: a miss *)

(** The store after [create] added a record for [c] with meaning [m]. *)
Lemma created_lookup (es : list Emoji) (i : Z) (c m : string) :
  Emoji_by_character c es = None ->
  Emoji_by_character c (es ++ [mkEmoji i c m]) = Some (mkEmoji i c m).
Proof.
  intros Hnew.
  rewrite by_character_records, (records_of_created c es (mkEmoji i c m) Hnew eq_refl).
  reflexivity.
Qed.

Lemma fetchEmojiMeaning_miss_run (w : World) (c m : string) :
  Emoji_by_character c (emojis (db w)) = None ->
  provider_meaning "explanation" (next_answer w (fetch_request c)) = Some m ->
  run (fetchEmojiMeaning c) w
  = (Returned {| emoji := c; explanation := m |},
     set_db (logged w (fetch_request c))
       {| users := users (db w);
          emojis := emojis (db w) ++ [mkEmoji (emoji_seq (db w)) c m];
          emoji_seq := emoji_seq (db w) + 1;
          feedbacks := feedbacks (db w) |}).
Proof.
  intros Hmiss Hmeaning.
  unfold fetchEmojiMeaning, logged. run_prog. rewrite Hmiss.
  unfold provider_meaning, next_answer, fetch_request in Hmeaning.
  cbn [run bind try_except perform fst snd].
  destruct (provider w _ _) as [e | response]; [discriminate |].
  cbn [run bind try_except].
  destruct (httpx.is_success response); [| discriminate].
  cbn [run bind try_except].
  destruct (httpx.payload response) as [d |]; [| discriminate].
  cbn [run bind try_except]. rewrite Hmeaning.
  cbn [run bind try_except perform db]. unfold Emoji_insert. rewrite Hmiss.
  reflexivity.
Qed.

(** X1: For a character that is not stored and a provider that answers with a
    success status and an ["explanation"], [fetchEmojiMeaning] returns that
    explanation, has called the provider exactly once, and has added exactly
    one record, for that character with that meaning, after the records that
    were there. *)
Theorem fetchEmojiMeaning_new_character (w : World) (c m : string) :
  Emoji_by_character c (emojis (db w)) = None ->
  provider_meaning "explanation" (next_answer w (fetch_request c)) = Some m ->
  fst (run (fetchEmojiMeaning c) w) = Returned {| emoji := c; explanation := m |}
  /\ http_log (snd (run (fetchEmojiMeaning c) w)) = http_log w ++ [fetch_request c]
  /\ emojis (db (snd (run (fetchEmojiMeaning c) w)))
     = emojis (db w) ++ [mkEmoji (emoji_seq (db w)) c m]
  /\ users (db (snd (run (fetchEmojiMeaning c) w))) = users (db w)
  /\ feedbacks (db (snd (run (fetchEmojiMeaning c) w))) = feedbacks (db w).
Proof.
  intros Hmiss Hmeaning. rewrite (fetchEmojiMeaning_miss_run w c m Hmiss Hmeaning).
  repeat split.
Qed.

Lemma fetchEmojiMeaning_new_character_witness :
  let w := world grin_db (answers 200 {[ "explanation" := "party popper" ]}) in
  fst (run (fetchEmojiMeaning "🎉") w)
  = Returned {| emoji := "🎉"; explanation := "party popper" |}
  /\ http_log (snd (run (fetchEmojiMeaning "🎉") w)) = [] ++ [fetch_request "🎉"]
  /\ emojis (db (snd (run (fetchEmojiMeaning "🎉") w)))
     = emojis grin_db ++ [mkEmoji 2 "🎉" "party popper"]
  /\ users (db (snd (run (fetchEmojiMeaning "🎉") w))) = []
  /\ feedbacks (db (snd (run (fetchEmojiMeaning "🎉") w))) = [].
Proof.
  intros w. apply (fetchEmojiMeaning_new_character w "🎉" "party popper"); reflexivity.
Defined.

(** X2: Read after write: once [fetchEmojiMeaning] has resolved a new character,
    resolving it again returns the same explanation from the store, with no
    further provider call and no further record, whatever the provider would
    answer by then. *)
Theorem fetchEmojiMeaning_twice (w : World) (c m : string) :
  Emoji_by_character c (emojis (db w)) = None ->
  provider_meaning "explanation" (next_answer w (fetch_request c)) = Some m ->
  let w1 := snd (run (fetchEmojiMeaning c) w) in
  run (fetchEmojiMeaning c) w1 = (Returned {| emoji := c; explanation := m |}, w1)
  /\ http_log w1 = http_log w ++ [fetch_request c].
Proof.
  intros Hmiss Hmeaning. rewrite (fetchEmojiMeaning_miss_run w c m Hmiss Hmeaning).
  cbn [snd]. split; [| reflexivity].
  unfold fetchEmojiMeaning. run_prog. cbn [db set_db logged emojis].
  rewrite (created_lookup _ _ c m Hmiss). reflexivity.
Qed.

Lemma fetchEmojiMeaning_twice_witness :
  let w := world empty_db (answers 200 {[ "explanation" := "grinning face" ]}) in
  let w1 := snd (run (fetchEmojiMeaning grin) w) in
  run (fetchEmojiMeaning grin) w1
  = (Returned {| emoji := grin; explanation := "grinning face" |}, w1)
  /\ http_log w1 = [] ++ [fetch_request grin].
Proof.
  intros w.
  apply (fetchEmojiMeaning_twice w grin "grinning face"); reflexivity.
Defined.

(** X4: The text of the [ValueError] tells the failures of the provider call
    apart: a status that is not a success is reported with the status and
    the body, a failure of the client with the URL and the client's text. *)
Theorem fetchEmojiMeaning_error_text (w : World) (c : string) :
  Emoji_by_character c (emojis (db w)) = None ->
  match next_answer w (fetch_request c) with
  | inr response =>
      httpx.is_success response = false ->
      run (fetchEmojiMeaning c) w
      = (Raised (ValueError ("HTTP Error occurred: "
                             +:+ str_int (httpx.status_code response)
                             +:+ " - " +:+ httpx.text response)),
         logged w (fetch_request c))
  | inl (RequestError u msg) =>
      run (fetchEmojiMeaning c) w
      = (Raised (ValueError ("Network Error: " +:+ u +:+ " - " +:+ msg)),
         logged w (fetch_request c))
  | inl (HTTPStatusError code body) =>
      run (fetchEmojiMeaning c) w
      = (Raised (ValueError ("HTTP Error occurred: " +:+ str_int code
                             +:+ " - " +:+ body)),
         logged w (fetch_request c))
  | inl e =>
      run (fetchEmojiMeaning c) w
      = (Raised (ValueError ("An error occurred: " +:+ str_exn e)),
         logged w (fetch_request c))
  end.
Proof.
  intros Hmiss.
  unfold fetchEmojiMeaning, logged, next_answer, fetch_request. run_prog.
  rewrite Hmiss. cbn [run bind try_except perform fst snd].
  destruct (provider w _ _) as [e | response].
  - destruct e; reflexivity.
  - intros Hstatus. cbn [run bind try_except]. rewrite Hstatus. reflexivity.
Qed.

Lemma fetchEmojiMeaning_error_text_witness :
  run (fetchEmojiMeaning grin) (world empty_db (answers 404 ∅))
  = (Raised (ValueError "HTTP Error occurred: 404 - "),
     logged (world empty_db (answers 404 ∅)) (fetch_request grin))
  /\ run (fetchEmojiMeaning grin) (world empty_db unreachable)
     = (Raised (ValueError
          "Network Error: https://api.groq.com/emoji?char=😀 - All connection attempts failed"),
        logged (world empty_db unreachable) (fetch_request grin)).
Proof.
  split.
  - apply (fetchEmojiMeaning_error_text (world empty_db (answers 404 ∅)) grin);
      reflexivity.
  - apply (fetchEmojiMeaning_error_text (world empty_db unreachable) grin).
    reflexivity.
Defined.

(** ** explainEmoji *)

(** X6: [explainEmoji] never raises and never touches a table: it makes one
    provider call and returns a response.  The response carries a meaning
    and no error exactly when the provider answered with a success status
    and a ["meaning"]; in every other case the meaning is empty and the
    error is set. *)
Theorem explainEmoji_never_raises (w : World) (c : string) :
  exists r,
    run (explainEmoji c) w = (Returned r, logged w (explain_request c))
    /\ match provider_meaning "meaning" (next_answer w (explain_request c)) with
       | Some m => r = {| explainEmoji_service.meaning := m; error := None |}
       | None => explainEmoji_service.meaning r = "" /\ error r <> None
       end.
Proof.
  unfold explainEmoji, logged, provider_meaning, next_answer, explain_request.
  run_prog.
  destruct (provider w _ _) as [e | response].
  - destruct e; eexists; (split; [reflexivity |]); cbn; split; congruence.
  - cbn [run bind try_except].
    destruct (httpx.is_success response);
      [| eexists; (split; [reflexivity |]); cbn; split; congruence].
    cbn [run bind try_except].
    destruct (httpx.payload response) as [d |];
      [| eexists; (split; [reflexivity |]); cbn; split; congruence].
    cbn [run bind try_except].
    destruct (d !! "meaning"); eexists; (split; [reflexivity |]); cbn;
      [reflexivity | split; congruence].
Qed.

(** ** interpretEmoji *)

(** X8: A 200 answer whose body is not JSON: the decoding error is not caught,
    it reaches the caller, and no record is written. *)
Theorem interpretEmoji_not_json (w : World) (c : string) (response : httpx.Response) :
  next_answer w (interpret_request c) = inr response ->
  httpx.status_code response = 200 ->
  httpx.payload response = None ->
  exists msg,
    run (interpretEmoji c) w = (Raised (JSONDecodeError msg), logged w (interpret_request c)).
Proof.
  intros Hanswer Hcode Hpayload.
  unfold interpretEmoji, next_answer, interpret_request, logged in *. run_prog.
  rewrite Hanswer. cbn [run bind]. rewrite Hcode. cbn [Z.eqb Pos.eqb run bind].
  rewrite Hpayload. cbn. eauto.
Qed.

Lemma interpretEmoji_not_json_witness :
  let w := world empty_db (fun _ _ => inr (httpx.mkResponse 200 "<html>" None)) in
  exists msg,
    run (interpretEmoji grin) w
    = (Raised (JSONDecodeError msg), logged w (interpret_request grin)).
Proof.
  intros w.
  apply (interpretEmoji_not_json w grin (httpx.mkResponse 200 "<html>" None));
    reflexivity.
Defined.

(** X10: What [interpretEmoji] stored is what [fetchEmojiMeaning] serves: after
    [interpretEmoji] got a 200 answer with a meaning for a character that
    was not stored, [fetchEmojiMeaning] returns that meaning for the
    character without calling the provider. *)
Theorem interpretEmoji_then_fetchEmojiMeaning
    (w : World) (c m : string) (response : httpx.Response) (d : gmap string string) :
  next_answer w (interpret_request c) = inr response ->
  httpx.status_code response = 200 ->
  httpx.payload response = Some d ->
  d !! "meaning" = Some m ->
  Emoji_by_character c (emojis (db w)) = None ->
  let w1 := snd (run (interpretEmoji c) w) in
  run (fetchEmojiMeaning c) w1 = (Returned {| emoji := c; explanation := m |}, w1).
Proof.
  intros Hanswer Hcode Hpayload Hfield Hmiss w1.
  assert (Hstored : Emoji_by_character c (emojis (db w1))
                    = Some (mkEmoji (emoji_seq (db w)) c m)).
  { pose proof (interpretEmoji_success w c m response d Hanswer Hcode Hpayload Hfield)
      as Hrun.
    rewrite Hmiss in Hrun. destruct Hrun as [_ Hemojis].
    subst w1. rewrite Hemojis. now apply created_lookup. }
  unfold fetchEmojiMeaning. run_prog. rewrite Hstored. reflexivity.
Qed.

Lemma interpretEmoji_then_fetchEmojiMeaning_witness :
  let w := world empty_db (answers 200 {[ "meaning" := "grinning face" ]}) in
  let w1 := snd (run (interpretEmoji grin) w) in
  run (fetchEmojiMeaning grin) w1
  = (Returned {| emoji := grin; explanation := "grinning face" |}, w1).
Proof.
  intros w.
  apply (interpretEmoji_then_fetchEmojiMeaning w grin "grinning face"
           (httpx.mkResponse 200 "" (Some {[ "meaning" := "grinning face" ]}))
           {[ "meaning" := "grinning face" ]}); reflexivity.
Defined.

(** ** deleteFeedback: the other answers *)

Lemma deleted_lookup (i : Z) (fs : list Feedback) :
  Feedback_by_id i (List.filter (fun f => negb (feedback_id f =? i)) fs) = None.
Proof.
  unfold Feedback_by_id.
  destruct (List.find _ (List.filter _ _)) as [g |] eqn:Hg; [| reflexivity].
  apply find_some in Hg as [Hin Heq]. apply filter_In in Hin as [_ Hne].
  rewrite Heq in Hne. discriminate.
Qed.

Lemma deleteFeedback_run (w : World) (feedbackId : Z) (f : Feedback) :
  Feedback_by_id feedbackId (feedbacks (db w)) = Some f ->
  reviewed f = false ->
  run (deleteFeedback_service.deleteFeedback feedbackId) w
  = (Returned
       {| deleteFeedback_service.success := true;
          deleteFeedback_service.message :=
            "Feedback " +:+ str_int feedbackId +:+ " successfully deleted." |},
     set_db w
       {| users := users (db w); emojis := emojis (db w);
          emoji_seq := emoji_seq (db w);
          feedbacks :=
            List.filter (fun f => negb (feedback_id f =? feedbackId))
              (feedbacks (db w)) |}).
Proof.
  intros Hfind Hreviewed.
  unfold deleteFeedback_service.deleteFeedback. run_prog.
  rewrite Hfind, Hreviewed. cbn [run bind perform db fst snd]. rewrite Hfind.
  reflexivity.
Qed.

(** X11: An id no feedback has: the answer says so and nothing changes. *)
Theorem deleteFeedback_missing (w : World) (feedbackId : Z) :
  Feedback_by_id feedbackId (feedbacks (db w)) = None ->
  run (deleteFeedback_service.deleteFeedback feedbackId) w
  = (Returned
       {| deleteFeedback_service.success := false;
          deleteFeedback_service.message :=
            "No feedback found with ID " +:+ str_int feedbackId |}, w).
Proof.
  intros Hfind. unfold deleteFeedback_service.deleteFeedback. run_prog.
  rewrite Hfind. reflexivity.
Qed.

Lemma deleteFeedback_missing_witness :
  run (deleteFeedback_service.deleteFeedback 7) (world feedback_db unreachable)
  = (Returned
       {| deleteFeedback_service.success := false;
          deleteFeedback_service.message := "No feedback found with ID 7" |},
     world feedback_db unreachable).
Proof.
  apply (deleteFeedback_missing (world feedback_db unreachable) 7). reflexivity.
Defined.

(** X12: Deleting a feedback that is not reviewed succeeds and removes that
    feedback only: every other feedback row stays, and the users, the emojis
    and the log of provider calls are as they were. *)
Theorem deleteFeedback_removes_one (w : World) (feedbackId : Z) (f : Feedback) :
  Feedback_by_id feedbackId (feedbacks (db w)) = Some f ->
  reviewed f = false ->
  let w' := snd (run (deleteFeedback_service.deleteFeedback feedbackId) w) in
  fst (run (deleteFeedback_service.deleteFeedback feedbackId) w)
  = Returned
      {| deleteFeedback_service.success := true;
         deleteFeedback_service.message :=
           "Feedback " +:+ str_int feedbackId +:+ " successfully deleted." |}
  /\ (forall g, In g (feedbacks (db w'))
                <-> In g (feedbacks (db w)) /\ feedback_id g <> feedbackId)
  /\ users (db w') = users (db w)
  /\ emojis (db w') = emojis (db w)
  /\ http_log w' = http_log w.
Proof.
  intros Hfind Hreviewed. rewrite (deleteFeedback_run w feedbackId f Hfind Hreviewed).
  cbn [fst snd db set_db feedbacks users emojis http_log]. repeat split; auto.
  - now apply filter_In in H.
  - apply filter_In in H as [_ Hne]. intros Heq. rewrite Heq, Z.eqb_refl in Hne.
    discriminate.
  - intros [Hin Hne]. apply filter_In. split; [exact Hin |].
    now destruct (Z.eqb_spec (feedback_id g) feedbackId).
Qed.

Lemma deleteFeedback_removes_one_witness :
  let w' := snd (run (deleteFeedback_service.deleteFeedback 3)
                   (world feedback_db unreachable)) in
  fst (run (deleteFeedback_service.deleteFeedback 3) (world feedback_db unreachable))
  = Returned
      {| deleteFeedback_service.success := true;
         deleteFeedback_service.message := "Feedback 3 successfully deleted." |}
  /\ (forall g, In g (feedbacks (db w'))
                <-> In g (feedbacks feedback_db) /\ feedback_id g <> 3)
  /\ users (db w') = users feedback_db
  /\ emojis (db w') = emojis feedback_db
  /\ http_log w' = [].
Proof.
  apply (deleteFeedback_removes_one (world feedback_db unreachable) 3
           (mkFeedback 3 1 2 "loud" 200 false)); reflexivity.
Defined.

(** X13: Deleting the same feedback a second time finds nothing and changes
    nothing. *)
Theorem deleteFeedback_twice (w : World) (feedbackId : Z) (f : Feedback) :
  Feedback_by_id feedbackId (feedbacks (db w)) = Some f ->
  reviewed f = false ->
  let w1 := snd (run (deleteFeedback_service.deleteFeedback feedbackId) w) in
  run (deleteFeedback_service.deleteFeedback feedbackId) w1
  = (Returned
       {| deleteFeedback_service.success := false;
          deleteFeedback_service.message :=
            "No feedback found with ID " +:+ str_int feedbackId |}, w1).
Proof.
  intros Hfind Hreviewed. rewrite (deleteFeedback_run w feedbackId f Hfind Hreviewed).
  cbn [snd]. unfold deleteFeedback_service.deleteFeedback. run_prog.
  cbn [db set_db feedbacks]. rewrite deleted_lookup. reflexivity.
Qed.

Lemma deleteFeedback_twice_witness :
  let w1 := snd (run (deleteFeedback_service.deleteFeedback 1)
                   (world feedback_db unreachable)) in
  run (deleteFeedback_service.deleteFeedback 1) w1
  = (Returned
       {| deleteFeedback_service.success := false;
          deleteFeedback_service.message := "No feedback found with ID 1" |}, w1).
Proof.
  apply (deleteFeedback_twice (world feedback_db unreachable) 1
           (mkFeedback 1 1 1 "nice" 100 false)); reflexivity.
Defined.

(** ** deleteUser: the other answers *)

Lemma deleteUser_not_a_number_witness :
  run (deleteUser_service.deleteUser int_decimal "abc") (world feedback_db unreachable)
  = (Raised (ValueError "invalid literal for int() with base 10: 'abc'"),
     world feedback_db unreachable).
Proof.
  apply (deleteUser_not_a_number int_decimal (world feedback_db unreachable) "abc").
  reflexivity.
Defined.

(** X15: Deleting the same administrator a second time answers 404 and changes
    nothing. *)
Theorem deleteUser_twice
    (int : string -> exn + Z) (w : World) (userId : string) (n : Z) (user : User) :
  int userId = inr n ->
  User_by_id n (users (db w)) = Some user ->
  user_role user = ADMIN ->
  let w1 := snd (run (deleteUser_service.deleteUser int userId) w) in
  run (deleteUser_service.deleteUser int userId) w1
  = (Returned {| deleteUser_service.message := "User not found.";
                 deleteUser_service.status := 404 |}, w1).
Proof.
  intros Hint Hfind Hrole.
  assert (Hrun : snd (run (deleteUser_service.deleteUser int userId) w)
                 = set_db w
                     {| users := List.filter (fun u => negb (user_id u =? n)) (users (db w));
                        emojis := emojis (db w); emoji_seq := emoji_seq (db w);
                        feedbacks := feedbacks (db w) |}).
  { unfold deleteUser_service.deleteUser, deleteUser_service.int_. run_prog.
    rewrite Hint. cbn [run bind perform db fst snd]. rewrite Hfind, Hrole.
    reflexivity. }
  rewrite Hrun. cbn zeta.
  unfold deleteUser_service.deleteUser, deleteUser_service.int_. run_prog.
  rewrite Hint. cbn [run bind perform db set_db users fst snd].
  assert (Hgone : User_by_id n (List.filter (fun u => negb (user_id u =? n)) (users (db w)))
                  = None).
  { unfold User_by_id.
    destruct (List.find _ (List.filter _ _)) as [g |] eqn:Hg; [| reflexivity].
    apply find_some in Hg as [Hin Heq]. apply filter_In in Hin as [_ Hne].
    rewrite Heq in Hne. discriminate. }
  rewrite Hgone. reflexivity.
Qed.

Lemma deleteUser_twice_witness :
  let w1 := snd (run (deleteUser_service.deleteUser int_decimal "2")
                   (world feedback_db unreachable)) in
  run (deleteUser_service.deleteUser int_decimal "2") w1
  = (Returned {| deleteUser_service.message := "User not found.";
                 deleteUser_service.status := 404 |}, w1).
Proof.
  apply (deleteUser_twice int_decimal (world feedback_db unreachable) "2" 2 bob);
    reflexivity.
Defined.

(** ** userLogin: refused logins *)

Lemma userLogin_invalid_credentials_witness :
  run (userLogin_service.userLogin verify_example encode_example "a@x.com" "wrong")
    (world feedback_db unreachable)
  = (Raised (ValueError "Invalid email or password"), world feedback_db unreachable)
  /\ run (userLogin_service.userLogin verify_example encode_example "nobody@x.com" "pw")
       (world feedback_db unreachable)
     = (Raised (ValueError "Invalid email or password"), world feedback_db unreachable).
Proof.
  split.
  - apply (userLogin_invalid_credentials verify_example encode_example
             (world feedback_db unreachable) "a@x.com" "wrong"). reflexivity.
  - apply (userLogin_invalid_credentials verify_example encode_example
             (world feedback_db unreachable) "nobody@x.com" "pw"). exact I.
Defined.

(** ** fetchFeedback: the edges of the paging *)

(** X17: A page size of 0: the page is fetched (empty), the rows are counted, and
    the division by the page size raises; for every page number. *)
Theorem fetchFeedback_limit_zero (w : World) (page : Z) :
  run (fetchFeedback_service.fetchFeedback page 0) w
  = (Raised (ZeroDivisionError "integer division or modulo by zero"), w).
Proof.
  unfold fetchFeedback_service.fetchFeedback. unfold_prog. cbn [run bind].
  rewrite find_many_page by lia. reflexivity.
Qed.

(** *** Comprehensions over parts of a list *)

Lemma for_each_cons {A B : Type} (f : A -> prog B) (a : A) (l : list A) (bs : list B) :
  for_each f (a :: l) = Ret bs ->
  exists b bs', f a = Ret b /\ for_each f l = Ret bs' /\ bs = b :: bs'.
Proof.
  cbn [for_each]. unfold mbind, prog_bind, mret, prog_ret.
  destruct (f a) as [b | e | X o k]; cbn [bind]; try discriminate.
  destruct (for_each f l) as [bs' | e | X o k]; cbn [bind]; try discriminate.
  intros [= <-]. eauto.
Qed.

Lemma for_each_skipn {A B : Type} (f : A -> prog B) (k : nat) (l : list A)
    (bs : list B) :
  for_each f l = Ret bs -> for_each f (skipn k l) = Ret (skipn k bs).
Proof.
  revert l bs. induction k as [| k IH]; intros l bs Hrun; [exact Hrun |].
  destruct l as [| a l].
  - cbn in Hrun. injection Hrun as <-. reflexivity.
  - apply for_each_cons in Hrun as (b & bs' & _ & Hrest & ->).
    cbn [skipn]. now apply IH.
Qed.

Lemma for_each_firstn {A B : Type} (f : A -> prog B) (k : nat) (l : list A)
    (bs : list B) :
  for_each f l = Ret bs -> for_each f (firstn k l) = Ret (firstn k bs).
Proof.
  revert l bs. induction k as [| k IH]; intros l bs Hrun; [reflexivity |].
  destruct l as [| a l].
  - cbn in Hrun. injection Hrun as <-. reflexivity.
  - apply for_each_cons in Hrun as (b & bs' & Hb & Hrest & ->).
    cbn [firstn for_each]. unfold mbind, prog_bind, mret, prog_ret.
    rewrite Hb. cbn [bind]. rewrite (IH l bs' Hrest). reflexivity.
Qed.

Lemma for_each_length {A B : Type} (f : A -> prog B) (l : list A) (bs : list B) :
  for_each f l = Ret bs -> length bs = length l.
Proof.
  revert bs. induction l as [| a l IH]; intros bs Hrun.
  - cbn in Hrun. now injection Hrun as <-.
  - apply for_each_cons in Hrun as (b & bs' & _ & Hrest & ->).
    cbn [length]. now rewrite (IH bs' Hrest).
Qed.


(** The page a call returns is a slice of the details of all rows. *)
Lemma fetchFeedback_slice (w : World) (page limit : Z)
    (all : list fetchFeedback_service.FeedbackDetail) :
  1 <= page -> 1 <= limit ->
  for_each fetchFeedback_service.detail
    (map (load {| include_user := true; include_emoji := false |} (db w))
       (order_desc (feedbacks (db w)))) = Ret all ->
  run (fetchFeedback_service.fetchFeedback page limit) w
  = (Returned
       {| fetchFeedback_service.feedbacks :=
            firstn (Z.to_nat limit) (skipn (Z.to_nat ((page - 1) * limit)) all);
          fetchFeedback_service.totalPages := pages_of w limit;
          fetchFeedback_service.currentPage := page |}, w).
Proof.
  intros Hpage Hlimit Hall.
  unfold fetchFeedback_service.fetchFeedback. unfold_prog. cbn [run bind].
  rewrite find_many_page by nia. cbn [order_by where_userId run bind perform].
  unfold floordiv. destruct (Z.eqb_spec limit 0); [lia |]. cbn [run bind].
  rewrite <- firstn_map, <- skipn_map.
  rewrite (for_each_firstn _ _ _ _ (for_each_skipn _ _ _ _ Hall)). reflexivity.
Qed.



(** X19: A page past the last one is empty, and still reports the number of
    pages. *)
Theorem fetchFeedback_past_end (w : World) (page limit : Z) :
  1 <= limit -> pages_of w limit < page ->
  run (fetchFeedback_service.fetchFeedback page limit) w
  = (Returned {| fetchFeedback_service.feedbacks := [];
                 fetchFeedback_service.totalPages := pages_of w limit;
                 fetchFeedback_service.currentPage := page |}, w).
Proof.
  intros Hlimit Hpast.
  assert (Hpages : 0 <= pages_of w limit) by (unfold pages_of; apply Z.div_pos; lia).
  pose proof (ceil_pages (Z.of_nat (length (feedbacks (db w)))) limit Hlimit)
    as [_ Hle]. fold (pages_of w limit) in Hle.
  unfold fetchFeedback_service.fetchFeedback. unfold_prog. cbn [run bind].
  rewrite find_many_page by nia. cbn [order_by where_userId run bind perform].
  unfold floordiv. destruct (Z.eqb_spec limit 0); [lia |]. cbn [run bind].
  rewrite skipn_all2; [rewrite firstn_nil; reflexivity |].
  rewrite (Permutation_length (order_desc_perm _)). nia.
Qed.

Lemma fetchFeedback_past_end_witness :
  run (fetchFeedback_service.fetchFeedback 3 2) (world feedback_db unreachable)
  = (Returned {| fetchFeedback_service.feedbacks := [];
                 fetchFeedback_service.totalPages :=
                   pages_of (world feedback_db unreachable) 2;
                 fetchFeedback_service.currentPage := 3 |},
     world feedback_db unreachable).
Proof.
  apply (fetchFeedback_past_end (world feedback_db unreachable) 3 2);
    [lia | reflexivity].
Defined.

(** * The handlers over the rest of the gateway *)

Ltac grun_prog :=
  unfold mbind, gprog_bind, mret, gprog_ret, gcall;
  cbn [grun gbind gperform perform fst snd].

Lemma set_base_same (g : Gateway) : set_base g (base g) = g.
Proof. now destruct g. Qed.

(** ** submitFeedback *)

(** X20: Feedback is refused, and nothing is written, when the user does not
    exist (whether or not the emoji does) and when the user exists but the
    emoji does not. *)
Theorem submitFeedback_refused (g : Gateway) (userId emojiId : Z) (content : string) :
  (User_by_id userId (users (db (base g))) = None ->
   grun (submitFeedback_service.submitFeedback userId emojiId content) g
   = (Returned {| submitFeedback_service.success := false;
                  submitFeedback_service.message := "User not found" |}, g))
  /\ (forall user,
         User_by_id userId (users (db (base g))) = Some user ->
         Emoji_by_id emojiId (emojis (db (base g))) = None ->
         grun (submitFeedback_service.submitFeedback userId emojiId content) g
         = (Returned {| submitFeedback_service.success := false;
                        submitFeedback_service.message := "Emoji not found" |}, g)).
Proof.
  unfold submitFeedback_service.submitFeedback. grun_prog.
  rewrite set_base_same. split.
  - intros ->. reflexivity.
  - intros user -> Hemoji. cbn [grun gbind gperform]. rewrite Hemoji.
    reflexivity.
Qed.

Lemma submitFeedback_refused_witness :
  grun (submitFeedback_service.submitFeedback 9 9 "nice")
    (gateway (world feedback_db unreachable))
  = (Returned {| submitFeedback_service.success := false;
                 submitFeedback_service.message := "User not found" |},
     gateway (world feedback_db unreachable))
  /\ grun (submitFeedback_service.submitFeedback 1 9 "nice")
       (gateway (world feedback_db unreachable))
     = (Returned {| submitFeedback_service.success := false;
                    submitFeedback_service.message := "Emoji not found" |},
        gateway (world feedback_db unreachable)).
Proof.
  split.
  - apply (proj1 (submitFeedback_refused (gateway (world feedback_db unreachable))
                    9 9 "nice")). reflexivity.
  - apply (proj2 (submitFeedback_refused (gateway (world feedback_db unreachable))
                    1 9 "nice") alice); reflexivity.
Defined.

(** The row [create] adds for a feedback. *)
Lemma submitFeedback_run (g : Gateway) (userId emojiId : Z) (content : string)
    (user : User) (emoji : Emoji) :
  User_by_id userId (users (db (base g))) = Some user ->
  Emoji_by_id emojiId (emojis (db (base g))) = Some emoji ->
  fst (grun (submitFeedback_service.submitFeedback userId emojiId content) g)
  = Returned {| submitFeedback_service.success := true;
                submitFeedback_service.message := "Feedback received successfully" |}
  /\ db (base (snd (grun (submitFeedback_service.submitFeedback userId emojiId content) g)))
     = {| users := users (db (base g)); emojis := emojis (db (base g));
          emoji_seq := emoji_seq (db (base g));
          feedbacks :=
            feedbacks (db (base g))
            ++ [mkFeedback (feedback_seq g) userId emojiId content
                  (feedback_createdAt g) (feedback_reviewed g)] |}
  /\ http_log (base (snd (grun (submitFeedback_service.submitFeedback
                                  userId emojiId content) g)))
     = http_log (base g).
Proof.
  intros Huser Hemoji.
  unfold submitFeedback_service.submitFeedback. grun_prog. rewrite Huser.
  cbn [grun gbind gperform set_base base]. rewrite Hemoji.
  cbn. repeat split.
Qed.

(** X21: When the user and the emoji exist, the feedback is accepted and exactly
    one row is added after the rows that were there: it carries the given
    user, emoji and content, and the id, creation time and reviewed flag the
    database gives to a new row.  Users, emojis and the log of provider calls
    are as they were. *)
Theorem submitFeedback_stores (g : Gateway) (userId emojiId : Z) (content : string)
    (user : User) (emoji : Emoji) :
  User_by_id userId (users (db (base g))) = Some user ->
  Emoji_by_id emojiId (emojis (db (base g))) = Some emoji ->
  let g' := snd (grun (submitFeedback_service.submitFeedback userId emojiId content) g) in
  fst (grun (submitFeedback_service.submitFeedback userId emojiId content) g)
  = Returned {| submitFeedback_service.success := true;
                submitFeedback_service.message := "Feedback received successfully" |}
  /\ feedbacks (db (base g'))
     = feedbacks (db (base g))
       ++ [mkFeedback (feedback_seq g) userId emojiId content
             (feedback_createdAt g) (feedback_reviewed g)]
  /\ users (db (base g')) = users (db (base g))
  /\ emojis (db (base g')) = emojis (db (base g))
  /\ http_log (base g') = http_log (base g).
Proof.
  intros Huser Hemoji g'.
  destruct (submitFeedback_run g userId emojiId content user emoji Huser Hemoji)
    as (Hr & Hdb & Hlog).
  subst g'. rewrite Hdb. repeat split; auto.
Qed.

Lemma submitFeedback_stores_witness :
  let g := gateway (world feedback_db unreachable) in
  let g' := snd (grun (submitFeedback_service.submitFeedback 1 1 "nice") g) in
  fst (grun (submitFeedback_service.submitFeedback 1 1 "nice") g)
  = Returned {| submitFeedback_service.success := true;
                submitFeedback_service.message := "Feedback received successfully" |}
  /\ feedbacks (db (base g'))
     = feedbacks feedback_db ++ [mkFeedback 4 1 1 "nice" 400 false]
  /\ users (db (base g')) = users feedback_db
  /\ emojis (db (base g')) = emojis feedback_db
  /\ http_log (base g') = [].
Proof.
  intros g.
  apply (submitFeedback_stores g 1 1 "nice" alice (mkEmoji 1 grin "grinning face"));
    reflexivity.
Defined.

(** *** Submitting, then deleting *)

Lemma new_row_lookup (i : Z) (fs : list Feedback) (f : Feedback) :
  (forall g, In g fs -> feedback_id g <> i) -> feedback_id f = i ->
  Feedback_by_id i (fs ++ [f]) = Some f
  /\ List.filter (fun g => negb (feedback_id g =? i)) (fs ++ [f]) = fs.
Proof.
  intros Hfresh Hid. unfold Feedback_by_id.
  induction fs as [| g fs IH]; cbn [app List.find List.filter].
  - rewrite Hid, Z.eqb_refl. split; reflexivity.
  - destruct (Z.eqb_spec (feedback_id g) i) as [Heq | Hne].
    + exfalso. apply (Hfresh g); [now left | exact Heq].
    + cbn [negb]. destruct IH as [Hfind Hfilter]; [intros h Hh; apply Hfresh; now right |].
      split; [exact Hfind | now rewrite Hfilter].
Qed.

(** X22: A feedback that was just submitted can be deleted as long as new rows
    are not reviewed: deleting it by its id succeeds, leaves the feedback
    table as it was before the submission, and a second deletion finds
    nothing. *)
Theorem submitFeedback_then_deleteFeedback
    (g : Gateway) (userId emojiId : Z) (content : string) (user : User) (emoji : Emoji) :
  User_by_id userId (users (db (base g))) = Some user ->
  Emoji_by_id emojiId (emojis (db (base g))) = Some emoji ->
  feedback_reviewed g = false ->
  (forall f, In f (feedbacks (db (base g))) -> feedback_id f <> feedback_seq g) ->
  let w1 := base (snd (grun (submitFeedback_service.submitFeedback
                               userId emojiId content) g)) in
  let w2 := snd (run (deleteFeedback_service.deleteFeedback (feedback_seq g)) w1) in
  fst (run (deleteFeedback_service.deleteFeedback (feedback_seq g)) w1)
  = Returned
      {| deleteFeedback_service.success := true;
         deleteFeedback_service.message :=
           "Feedback " +:+ str_int (feedback_seq g) +:+ " successfully deleted." |}
  /\ feedbacks (db w2) = feedbacks (db (base g))
  /\ run (deleteFeedback_service.deleteFeedback (feedback_seq g)) w2
     = (Returned
          {| deleteFeedback_service.success := false;
             deleteFeedback_service.message :=
               "No feedback found with ID " +:+ str_int (feedback_seq g) |}, w2).
Proof.
  intros Huser Hemoji Hreviewed Hfresh w1 w2.
  destruct (submitFeedback_run g userId emojiId content user emoji Huser Hemoji)
    as (_ & Hdb & _).
  fold w1 in Hdb.
  set (f := mkFeedback (feedback_seq g) userId emojiId content
              (feedback_createdAt g) (feedback_reviewed g)) in *.
  destruct (new_row_lookup (feedback_seq g) (feedbacks (db (base g))) f Hfresh eq_refl)
    as [Hfind Hfilter].
  assert (Hfind1 : Feedback_by_id (feedback_seq g) (feedbacks (db w1)) = Some f)
    by (rewrite Hdb; exact Hfind).
  assert (Hrun : run (deleteFeedback_service.deleteFeedback (feedback_seq g)) w1 = _)
    by exact (deleteFeedback_run w1 (feedback_seq g) f Hfind1 Hreviewed).
  subst w2. rewrite Hrun. cbn [fst snd db set_db feedbacks].
  split; [reflexivity |]. split; [rewrite Hdb; exact Hfilter |].
  unfold deleteFeedback_service.deleteFeedback. run_prog.
  cbn [db set_db feedbacks]. rewrite deleted_lookup. reflexivity.
Qed.

Lemma submitFeedback_then_deleteFeedback_witness :
  let g := gateway (world feedback_db unreachable) in
  let w1 := base (snd (grun (submitFeedback_service.submitFeedback 1 1 "nice") g)) in
  let w2 := snd (run (deleteFeedback_service.deleteFeedback 4) w1) in
  fst (run (deleteFeedback_service.deleteFeedback 4) w1)
  = Returned
      {| deleteFeedback_service.success := true;
         deleteFeedback_service.message := "Feedback 4 successfully deleted." |}
  /\ feedbacks (db w2) = feedbacks feedback_db
  /\ run (deleteFeedback_service.deleteFeedback 4) w2
     = (Returned
          {| deleteFeedback_service.success := false;
             deleteFeedback_service.message := "No feedback found with ID 4" |}, w2).
Proof.
  intros g.
  apply (submitFeedback_then_deleteFeedback g 1 1 "nice" alice
           (mkEmoji 1 grin "grinning face")); try reflexivity.
  intros f Hf. cbn in Hf.
  destruct Hf as [<- | [<- | [<- | []]]]; discriminate.
Defined.

(** *** Submitting, then paging *)

Lemma Forall2_In_left {A B : Type} (R : A -> B -> Prop) (l : list A) (l' : list B)
    (x : A) :
  Forall2 R l l' -> In x l -> exists y, In y l' /\ R x y.
Proof.
  induction 1 as [| a b l l' Hab Hall IH]; intros Hin; [contradiction |].
  destruct Hin as [<- | Hin].
  - exists b. split; [now left | exact Hab].
  - destruct (IH Hin) as (y & Hy & Hxy). exists y. split; [now right | exact Hxy].
Qed.

(** X23: A feedback that was just submitted is on the first page of
    [fetchFeedback] when the page size exceeds the number of rows there were:
    the page holds one entry more than there were rows, and among them the
    new feedback with its id, its content, its creation time and the email
    of the user who submitted it. *)
Theorem submitFeedback_then_fetchFeedback
    (g : Gateway) (userId emojiId : Z) (content : string) (user : User) (emoji : Emoji)
    (limit : Z) :
  User_by_id userId (users (db (base g))) = Some user ->
  Emoji_by_id emojiId (emojis (db (base g))) = Some emoji ->
  users_resolve (db (base g)) ->
  Z.of_nat (length (feedbacks (db (base g)))) < limit ->
  let w1 := base (snd (grun (submitFeedback_service.submitFeedback
                               userId emojiId content) g)) in
  length (page_of w1 1 limit) = S (length (feedbacks (db (base g))))
  /\ exists d,
       In d (page_of w1 1 limit)
       /\ fetchFeedback_service.id d = feedback_seq g
       /\ fetchFeedback_service.content d = content
       /\ fetchFeedback_service.createdAt d = feedback_createdAt g
       /\ fetchFeedback_service.userEmail d = user_email user.
Proof.
  intros Huser Hemoji Hres Hlimit w1.
  destruct (submitFeedback_run g userId emojiId content user emoji Huser Hemoji)
    as (_ & Hdb & _).
  fold w1 in Hdb.
  set (f := mkFeedback (feedback_seq g) userId emojiId content
              (feedback_createdAt g) (feedback_reviewed g)) in *.
  assert (Hres1 : forall h, In h (order_desc (feedbacks (db w1))) ->
                            exists u, User_by_id (prisma.userId h) (users (db w1)) = Some u).
  { intros h Hh. apply (Permutation_in h (order_desc_perm _)) in Hh.
    rewrite Hdb in *. cbn [users feedbacks] in *.
    apply in_app_or in Hh as [Hh | [<- | []]]; [now apply Hres | now exists user]. }
  destruct (for_each_detail (db w1) (order_desc (feedbacks (db w1))) Hres1)
    as [all [Hall Hjoined]].
  assert (Hlen : length all = S (length (feedbacks (db (base g))))).
  { rewrite (for_each_length _ _ _ Hall), length_map.
    rewrite (Permutation_length (order_desc_perm _)), Hdb. cbn [feedbacks].
    rewrite length_app. cbn. lia. }
  assert (Hpage : page_of w1 1 limit = all).
  { unfold page_of. rewrite (fetchFeedback_slice w1 1 limit all) by (auto; lia).
    cbn [fst fetchFeedback_service.feedbacks].
    change (Z.to_nat ((1 - 1) * limit)) with 0%nat. cbn [skipn].
    apply firstn_all2. lia. }
  rewrite Hpage. split; [exact Hlen |].
  destruct (Forall2_In_left _ _ _ f Hjoined)
    as (d & Hd & Hid & Hcontent & Hcreated & u & Hu & Hemail).
  { apply (Permutation_in f (Permutation_sym (order_desc_perm _))).
    rewrite Hdb. cbn [feedbacks]. apply in_or_app. right. now left. }
  exists d. repeat split; auto.
  rewrite Hemail. rewrite Hdb in Hu. cbn [users prisma.userId f] in Hu.
  rewrite Huser in Hu. now injection Hu as <-.
Qed.

Lemma submitFeedback_then_fetchFeedback_witness :
  let g := gateway (world feedback_db unreachable) in
  let w1 := base (snd (grun (submitFeedback_service.submitFeedback 1 1 "nice") g)) in
  length (page_of w1 1 10) = S (length (feedbacks feedback_db))
  /\ exists d,
       In d (page_of w1 1 10)
       /\ fetchFeedback_service.id d = 4
       /\ fetchFeedback_service.content d = "nice"
       /\ fetchFeedback_service.createdAt d = 400
       /\ fetchFeedback_service.userEmail d = "a@x.com".
Proof.
  intros g.
  apply (submitFeedback_then_fetchFeedback g 1 1 "nice" alice
           (mkEmoji 1 grin "grinning face") 10); try reflexivity.
  intros f Hf. cbn in Hf.
  destruct Hf as [<- | [<- | [<- | []]]]; eexists; reflexivity.
Defined.

(** ** getUserDetails *)




(** ** getSupportedEmojis *)



(** ** fetchEmojiMeaning: the race, for every character *)

(** The provider answer a call reads, in the terms of the handler. *)
Lemma fetch_answer_meaning (r : exn + httpx.Response) (m : string) :
  provider_meaning "explanation" r = Some m ->
  exists response d,
    r = inr response /\ httpx.is_success response = true
    /\ httpx.payload response = Some d /\ d !! "explanation" = Some m.
Proof.
  unfold provider_meaning. destruct r as [e | response]; [discriminate |].
  destruct (httpx.is_success response) eqn:Hok; [| discriminate].
  destruct (httpx.payload response) as [d |] eqn:Hd; [| discriminate].
  intros Hm. now exists response, d.
Qed.

(** X5: Two [fetchEmojiMeaning] calls for a character that is not stored, each
    answered by the provider with an explanation, where both have missed the
    store and called the provider before either creates the record: the
    first caller gets its explanation and its record is stored; the second
    caller's creation is refused and it gets a [ValueError], not the stored
    meaning; its own explanation is dropped. *)
Theorem fetchEmojiMeaning_race_refused (w : World) (c m1 m2 : string) :
  Emoji_by_character c (emojis (db w)) = None ->
  provider_meaning "explanation"
    (provider w (length (http_log w)) (fetch_request c)) = Some m1 ->
  provider_meaning "explanation"
    (provider w (S (length (http_log w))) (fetch_request c)) = Some m2 ->
  exists w',
    run2 [true; false; true; false] (fetchEmojiMeaning c) (fetchEmojiMeaning c) w
    = (Returned {| emoji := c; explanation := m1 |},
       Raised (ValueError
         "An error occurred: Unique constraint failed on the fields: (`character`)"),
       w')
    /\ emojis (db w') = emojis (db w) ++ [mkEmoji (emoji_seq (db w)) c m1]
    /\ http_log w' = http_log w ++ [fetch_request c; fetch_request c].
Proof.
  intros Hmiss Hfirst Hsecond.
  apply fetch_answer_meaning in Hfirst as (r1 & d1 & Hr1 & Hok1 & Hd1 & Hm1).
  apply fetch_answer_meaning in Hsecond as (r2 & d2 & Hr2 & Hok2 & Hd2 & Hm2).
  unfold fetch_request in *.
  unfold fetchEmojiMeaning. unfold_prog.
  cbn [run2 step bind try_except perform fst snd db]. rewrite Hmiss.
  cbn [run2 step bind try_except perform fst snd db http_log provider].
  rewrite Hr1. rewrite length_app. cbn [length]. rewrite Nat.add_1_r, Hr2.
  cbn [run2 run step bind try_except]. rewrite Hok1, Hok2.
  cbn [run bind try_except]. rewrite Hd1, Hd2.
  cbn [run bind try_except]. rewrite Hm1, Hm2.
  cbn [run bind try_except perform db]. unfold Emoji_insert. rewrite Hmiss.
  cbn [run bind try_except perform db set_db emojis].
  rewrite (created_lookup _ _ c m1 Hmiss).
  cbn [run bind try_except]. eexists. split; [reflexivity |].
  cbn [db emojis http_log]. split; [reflexivity |].
  now rewrite <- app_assoc.
Qed.

Lemma fetchEmojiMeaning_race_refused_witness :
  let w := world grin_db (fun n _ =>
             inr (httpx.mkResponse 200 ""
                    (Some {[ "explanation" :=
                               if Nat.eqb n 0 then "party popper" else "tada" ]}))) in
  exists w',
    run2 [true; false; true; false] (fetchEmojiMeaning "🎉") (fetchEmojiMeaning "🎉") w
    = (Returned {| emoji := "🎉"; explanation := "party popper" |},
       Raised (ValueError
         "An error occurred: Unique constraint failed on the fields: (`character`)"),
       w')
    /\ emojis (db w') = emojis grin_db ++ [mkEmoji 2 "🎉" "party popper"]
    /\ http_log w' = [] ++ [fetch_request "🎉"; fetch_request "🎉"].
Proof.
  intros w.
  apply (fetchEmojiMeaning_race_refused w "🎉" "party popper" "tada"); reflexivity.
Defined.

(** ** Witnesses of the failure lemmas *)

Lemma fetchEmojiMeaning_provider_failure_witness :
  exists msg,
    run (fetchEmojiMeaning grin) (world empty_db (answers 200 ∅))
    = (Raised (ValueError msg),
       logged (world empty_db (answers 200 ∅)) (fetch_request grin)).
Proof.
  apply (fetchEmojiMeaning_provider_failure (world empty_db (answers 200 ∅)) grin);
    reflexivity.
Defined.

Lemma interpretEmoji_provider_failure_witness :
  run (interpretEmoji grin) (world empty_db unreachable)
  = (Raised (RequestError "https://console.groq.com/api/interpret"
               "All connection attempts failed"),
     logged (world empty_db unreachable) (interpret_request grin))
  /\ run (interpretEmoji grin)
       (world empty_db (answers 201 {[ "meaning" := "grinning face" ]}))
     = (Returned {| interpretEmoji_service.meaning := "Failed to interpret the emoji." |},
        logged (world empty_db (answers 201 {[ "meaning" := "grinning face" ]}))
          (interpret_request grin)).
Proof.
  split.
  - apply (interpretEmoji_provider_failure (world empty_db unreachable) grin).
  - apply (interpretEmoji_provider_failure
             (world empty_db (answers 201 {[ "meaning" := "grinning face" ]})) grin).
    discriminate.
Defined.
